(** * FrameFolio: the upload modals of the web client

    A shallow embedding of the three React components that drive the
    upload-ingestion protocol from the browser
    ([CropPositioningModal], [DuplicateModal], [UploadProgressModal]),
    together with a model of the server-side job pipeline as the
    specification describes it.

    Conventions.
    - A JavaScript number is idealised as an exact rational ([Q]); the
      rounding of IEEE doubles and the values NaN and Infinity are not
      modelled.  Division is the total one of [Q]; the statements about
      the preview assume positive dimensions, where it agrees with the
      division of JavaScript.
    - React state is an explicit record; an event handler is a function
      from the state (and the event) to the next state.
    - An [async] handler is a small interaction tree ([Async.prog]): it
      emits effects and awaits the outcome of a [fetch]. *)

From Stdlib Require Import QArith Qminmax Qround Qabs Lqa Lia ZArith.
From Stdlib Require Import DecimalString.
From Stdlib Require Import List String Bool.
Import ListNotations.

Local Open Scope string_scope.
Local Open Scope Q_scope.

(* ================================================================== *)
(** * JavaScript values as they come out of [response.json()] *)

Module JS.

#[warnings="-register-all"]
Inductive value : Type :=
| Undefined
| Null
| Bool (b : bool)
| Num (q : Q)
| Str (s : string)
| Arr (items : list value)
| Obj (fields : list (string * value)).

(** [ToBoolean]: what [!v], [v || w] and [if (v)] look at. *)
Definition truthy (v : value) : bool :=
  match v with
  | Undefined | Null => false
  | Bool b => b
  | Num q => negb (Qeq_bool q 0)
  | Str EmptyString => false
  | Str _ => true
  | Arr _ | Obj _ => true
  end.

Fixpoint lookup (k : string) (fields : list (string * value)) : value :=
  match fields with
  | [] => Undefined
  | (k', v) :: rest => if String.eqb k k' then v else lookup k rest
  end.

(** [v.k].  [None] is the [TypeError] thrown on [undefined] and [null];
    a field that is absent reads as [Undefined].  The only built-in
    property the components read is [length]. *)
Definition get (v : value) (k : string) : option value :=
  match v with
  | Undefined | Null => None
  | Obj fields => Some (lookup k fields)
  | Arr items =>
      Some (if String.eqb k "length"
            then Num (inject_Z (Z.of_nat (List.length items)))
            else Undefined)
  | Str s =>
      Some (if String.eqb k "length"
            then Num (inject_Z (Z.of_nat (String.length s)))
            else Undefined)
  | _ => Some Undefined
  end.

(** [v?.k] *)
Definition get_opt (v : value) (k : string) : value :=
  match get v k with
  | Some w => w
  | None => Undefined
  end.

(** [v?.[0]] of an array *)
Definition first_opt (v : value) : value :=
  match v with
  | Arr (w :: _) => w
  | _ => Undefined
  end.

(** [v || w] *)
Definition or (v w : value) : value := if truthy v then v else w.

(** [v === 'lit'] *)
Definition is_str (v : value) (lit : string) : bool :=
  match v with
  | Str s => String.eqb s lit
  | _ => false
  end.


End JS.

(* ================================================================== *)
(** * Asynchronous handlers *)

Module Async.

(** What [await fetch(...)] followed by [await response.json()] hands
    back: the parsed body, or an exception (network failure, a body
    that is not JSON). *)
Inductive outcome : Type :=
| Rejected (message : string)
| Resolved (data : JS.value).

Section Prog.
Variables Req Eff : Type.

Inductive prog : Type :=
| Done
| Emit (e : Eff) (k : prog)
| Fetch (r : Req) (k : outcome -> prog).

Inductive action : Type :=
| Sent (r : Req)
| Did (e : Eff).

(** The trace of a handler against a server that answers each
    request. *)
Fixpoint run (server : Req -> outcome) (p : prog) : list action :=
  match p with
  | Done => []
  | Emit e k => Did e :: run server k
  | Fetch r k => Sent r :: run server (k (server r))
  end.

Definition requests (t : list action) : list Req :=
  flat_map (fun a => match a with Sent r => [r] | Did _ => [] end) t.

Definition effects (t : list action) : list Eff :=
  flat_map (fun a => match a with Sent _ => [] | Did e => [e] end) t.
End Prog.

Arguments Done {Req Eff}.
Arguments Emit {Req Eff} e k.
Arguments Fetch {Req Eff} r k.
Arguments Sent {Req Eff} r.
Arguments Did {Req Eff} e.
Arguments run {Req Eff} server p.
Arguments requests {Req Eff} t.
Arguments effects {Req Eff} t.

End Async.

(** Props shared by the modals: the [result] entry of the file that the
    job is paused on. *)
Record AspectInfo : Type := {
  ai_width : Q;
  ai_height : Q;
  ai_aspect : Q
}.

Record FileEntry : Type := {
  filename : string;
  thumbnail : string;
  aspect_info : AspectInfo
}.

(** [`${window.location.origin}/api/images/upload/${jobId}/<what>`],
    without the origin. *)
Definition upload_url (jobId what : string) : string :=
  "/api/images/upload/" ++ jobId ++ "/" ++ what.

(* ================================================================== *)
(** * CropPositioningModal
    (components/modals/CropPositioningModal.jsx; the copy bundled in
    components/modals/ImageDetailModal.jsx has the same state and the
    same handlers, and hands the response body to [onComplete]) *)

Module CropPositioning.

Record CropBox : Type := {
  x : Q;
  y : Q;
  width : Q;
  height : Q
}.

Record Point : Type := { px : Q; py : Q }.

Record State : Type := {
  cropBox : CropBox;
  isDragging : bool;
  dragOffset : Point;
  isSubmitting : bool
}.

(** The four [useState] initial values. *)
Definition initial : State := {|
  cropBox := {| x := 0.1; y := 0.1; width := 0.8; height := 0.8 |};
  isDragging := false;
  dragOffset := {| px := 0; py := 0 |};
  isSubmitting := false
|}.

(** [const targetAspect = 3840 / 2160] and the canvas named in the
    dialog text ("Will be: 3840x2160"). *)
Definition canvasWidth : Z := 3840.
Definition canvasHeight : Z := 2160.
Definition targetAspect : Q := inject_Z canvasWidth / inject_Z canvasHeight.

Definition maxWidth : Q := 400.
Definition maxHeight : Q := 400.

Definition Qgtb (a b : Q) : bool := negb (Qle_bool a b).

Definition displayAspect (a : AspectInfo) : Q := ai_width a / ai_height a.

(** [(previewWidth, previewHeight)] *)
Definition preview (a : AspectInfo) : Q * Q :=
  if Qgtb (displayAspect a) (maxWidth / maxHeight)
  then (maxWidth, maxWidth / displayAspect a)
  else (maxHeight * displayAspect a, maxHeight).

Definition previewWidth (a : AspectInfo) : Q := fst (preview a).
Definition previewHeight (a : AspectInfo) : Q := snd (preview a).

(** A mouse event and [containerRef.current.getBoundingClientRect()];
    the rectangle is [None] while the ref is still [null]. *)
Record MouseEvent : Type := { clientX : Q; clientY : Q }.
Record Rect : Type := { left : Q; top : Q }.

Definition handleMouseDown (e : MouseEvent) (ref : option Rect) (s : State)
  : State :=
  match ref with
  | None => s
  | Some rect =>
      {| cropBox := cropBox s;
         isDragging := true;
         dragOffset := {| px := clientX e - left rect;
                          py := clientY e - top rect |};
         isSubmitting := isSubmitting s |}
  end.

(** The functional update passed to [setCropBox]. *)
Definition moveBox (deltaX deltaY : Q) (prev : CropBox) : CropBox :=
  {| x := Qmax 0 (Qmin (1 - width prev) (x prev + deltaX));
     y := Qmax 0 (Qmin (1 - height prev) (y prev + deltaY));
     width := width prev;
     height := height prev |}.

Definition handleMouseMove (a : AspectInfo) (e : MouseEvent)
  (ref : option Rect) (s : State) : State :=
  match isDragging s, ref with
  | true, Some rect =>
      let currentX := clientX e - left rect in
      let currentY := clientY e - top rect in
      let deltaX := (currentX - px (dragOffset s)) / previewWidth a in
      let deltaY := (currentY - py (dragOffset s)) / previewHeight a in
      {| cropBox := moveBox deltaX deltaY (cropBox s);
         isDragging := isDragging s;
         dragOffset := {| px := currentX; py := currentY |};
         isSubmitting := isSubmitting s |}
  | _, _ => s
  end.

Definition handleMouseUp (s : State) : State :=
  {| cropBox := cropBox s;
     isDragging := false;
     dragOffset := dragOffset s;
     isSubmitting := isSubmitting s |}.

Inductive Event : Type :=
| MouseDown (e : MouseEvent) (ref : option Rect)
| MouseMove (e : MouseEvent) (ref : option Rect)
| MouseUp.

Definition step (a : AspectInfo) (s : State) (ev : Event) : State :=
  match ev with
  | MouseDown e ref => handleMouseDown e ref s
  | MouseMove e ref => handleMouseMove a e ref s
  | MouseUp => handleMouseUp s
  end.

Definition play (a : AspectInfo) (evs : list Event) (s : State) : State :=
  fold_left (step a) evs s.

(** The body of the position request. *)
Record PositionBody : Type := {
  pb_filename : string;
  pb_crop_box : CropBox
}.

Record Request : Type := {
  req_url : string;
  req_body : PositionBody
}.

Inductive Effect : Type :=
| SetIsSubmitting (b : bool)
| OnComplete
| ConsoleError (message : string).

(** [handleSubmit]; the [finally] clause runs on both paths. *)
Definition handleSubmit (result : FileEntry) (jobId : string) (s : State)
  : Async.prog Request Effect :=
  Async.Emit (SetIsSubmitting true)
    (Async.Fetch
       {| req_url := upload_url jobId "position";
          req_body := {| pb_filename := filename result;
                         pb_crop_box := cropBox s |} |}
       (fun r =>
          match r with
          | Async.Resolved data =>
              match JS.get data "error" with
              | Some err =>
                  if negb (JS.truthy err)
                  then Async.Emit OnComplete
                         (Async.Emit (SetIsSubmitting false) Async.Done)
                  else Async.Emit (SetIsSubmitting false) Async.Done
              | None =>
                  Async.Emit (ConsoleError "Positioning failed:")
                    (Async.Emit (SetIsSubmitting false) Async.Done)
              end
          | Async.Rejected _ =>
              Async.Emit (ConsoleError "Positioning failed:")
                (Async.Emit (SetIsSubmitting false) Async.Done)
          end)).

(** The CropBox invariants of the data model. *)
Definition valid (b : CropBox) : Prop :=
  0 <= x b /\ 0 <= y b /\
  x b + width b <= 1 /\ y b + height b <= 1 /\
  0 < width b /\ 0 < height b.

(** Every position request a session can send: drag for a while, then
    confirm, against any server. *)
Definition submitted (result : FileEntry) (jobId : string)
  (evs : list Event) (server : Request -> Async.outcome) : list Request :=
  Async.requests
    (Async.run server
       (handleSubmit result jobId
          (play (aspect_info result) evs initial))).

End CropPositioning.

(* ================================================================== *)
(** * DuplicateModal (components/modals/DuplicateModal.jsx) *)

Module Duplicate.

Record Body : Type := {
  body_filename : string;
  body_action : string
}.

Record Request : Type := {
  req_url : string;
  req_body : Body
}.

Inductive Effect : Type :=
| OnAction (action : string)
| ConsoleError (message : string).

(** The actions of the protocol: [skip|overwrite|import_anyway]. *)
Definition actions : list string := ["skip"; "overwrite"; "import_anyway"].

(** The POST of [handleAction]: the url, and the body handed to
    [JSON.stringify]. *)
Definition request (result : FileEntry) (jobId : string) (action : string)
  : Request :=
  {| req_url := upload_url jobId "duplicate-action";
     req_body := {| body_filename := filename result;
                    body_action := action |} |}.

Definition handleAction (result : FileEntry) (jobId : string)
  (action : string) : Async.prog Request Effect :=
  Async.Fetch (request result jobId action)
    (fun r =>
       match r with
       | Async.Resolved data =>
           match JS.get data "error" with
           | Some err =>
               if negb (JS.truthy err)
               then Async.Emit (OnAction action) Async.Done
               else Async.Done
           | None =>
               Async.Emit (ConsoleError "Duplicate action failed:") Async.Done
           end
       | Async.Rejected _ =>
           Async.Emit (ConsoleError "Duplicate action failed:") Async.Done
       end).

(** Where a click can land.  A click on the dialog itself stops at the
    dialog ([e.stopPropagation()]), so only a click on the overlay
    reaches the overlay's handler. *)
Inductive Click : Type :=
| Overlay
| Dialog
| SkipButton
| OverwriteButton
| ImportButton.

Definition onClick (result : FileEntry) (jobId : string) (c : Click)
  : Async.prog Request Effect :=
  match c with
  | Overlay => Async.Emit (OnAction "skip") Async.Done
  | Dialog => Async.Done
  | SkipButton => handleAction result jobId "skip"
  | OverwriteButton => handleAction result jobId "overwrite"
  | ImportButton => handleAction result jobId "import_anyway"
  end.

Definition session (result : FileEntry) (jobId : string)
  (server : Request -> Async.outcome) (clicks : list Click)
  : list (Async.action Request Effect) :=
  flat_map (fun c => Async.run server (onClick result jobId c)) clicks.

(** A request as the protocol wants it: to the duplicate-action
    endpoint of the job, about the paused file, with a known action. *)
Definition wellformed (result : FileEntry) (jobId : string) (r : Request)
  : Prop :=
  req_url r = upload_url jobId "duplicate-action"
  /\ body_filename (req_body r) = filename result
  /\ In (body_action (req_body r)) actions.

(** The literal each button passes to [handleAction]. *)
Definition button_action (c : Click) : option string :=
  match c with
  | SkipButton => Some "skip"
  | OverwriteButton => Some "overwrite"
  | ImportButton => Some "import_anyway"
  | Overlay | Dialog => None
  end.

End Duplicate.

(** * DuplicateModal as bundled with the other upload modals
    (the second component of components/modals/ImageDetailModal.jsx):
    the overlay has its own [onSkip] prop, and the buttons are disabled
    once an action has been chosen. *)

Module DuplicateBundled.

Inductive Effect : Type :=
| SetSelectedAction (action : string)
| OnAction (action : string)
| OnSkip
| ConsoleError (message : string).

Definition handleAction (result : FileEntry) (jobId : string)
  (action : string) : Async.prog Duplicate.Request Effect :=
  Async.Emit (SetSelectedAction action)
    (Async.Fetch (Duplicate.request result jobId action)
       (fun r =>
          match r with
          | Async.Resolved data =>
              match JS.get data "error" with
              | Some err =>
                  if negb (JS.truthy err)
                  then Async.Emit (OnAction action) Async.Done
                  else Async.Done
              | None =>
                  Async.Emit (ConsoleError "Duplicate action failed:")
                    Async.Done
              end
          | Async.Rejected _ =>
              Async.Emit (ConsoleError "Duplicate action failed:") Async.Done
          end)).

(** [selectedAction]: [None] is the initial [null]. *)
Definition State : Type := option string.

Definition disabled (s : State) : bool :=
  match s with
  | None => false
  | Some a => JS.truthy (JS.Str a)
  end.

Definition onClick (result : FileEntry) (jobId : string) (s : State)
  (c : Duplicate.Click) : State * Async.prog Duplicate.Request Effect :=
  match c with
  | Duplicate.Overlay => (s, Async.Emit OnSkip Async.Done)
  | Duplicate.Dialog => (s, Async.Done)
  | _ =>
      match Duplicate.button_action c with
      | Some a =>
          if disabled s then (s, Async.Done)
          else (Some a, handleAction result jobId a)
      | None => (s, Async.Done)
      end
  end.

Fixpoint session (result : FileEntry) (jobId : string)
  (server : Duplicate.Request -> Async.outcome) (s : State)
  (clicks : list Duplicate.Click)
  : list (Async.action Duplicate.Request Effect) :=
  match clicks with
  | [] => []
  | c :: rest =>
      let '(s', p) := onClick result jobId s c in
      (Async.run server p ++ session result jobId server s' rest)%list
  end.

End DuplicateBundled.

(* ================================================================== *)
(** * UploadProgressModal *)

Module UploadProgress.

Record State : Type := {
  status : JS.value;          (* [useState(null)] *)
  error : JS.value;           (* [useState(null)] *)
  timer : option Z;           (* period of the armed interval, in ms *)
  inflight : nat              (* polls whose [fetch] has not settled *)
}.

Definition unmounted : State :=
  {| status := JS.Null; error := JS.Null; timer := None; inflight := 0 |}.

(** The effect body up to [setInterval]: nothing is armed for a falsy
    [jobId]. *)
Definition mount (jobId : string) : State :=
  if negb (JS.truthy (JS.Str jobId)) then unmounted
  else {| status := JS.Null; error := JS.Null;
          timer := Some 300%Z; inflight := 0 |}.

Inductive Effect : Type :=
| SetStatus (data : JS.value)
| SetError (e : JS.value)
| ClearInterval
| OnError (errors : JS.value)
| OnComplete (data : JS.value).

(** [v?.[0]] on what [data.errors] may hold: the first element of an
    array, the first character of a string, the property [0] of an
    object, and [undefined] otherwise. *)
Definition first_of (v : JS.value) : JS.value :=
  match v with
  | JS.Str (String c _) => JS.Str (String c EmptyString)
  | JS.Obj fields => JS.lookup "0" fields
  | _ => JS.first_opt v
  end.

(** The interval callback after its [fetch] has settled. *)
Definition settled (o : Async.outcome) : list Effect :=
  match o with
  | Async.Rejected message => [SetError (JS.Str message); ClearInterval]
  | Async.Resolved data =>
      SetStatus data ::
      match JS.get data "status" with
      | None => [SetError (JS.Str "TypeError"); ClearInterval]
      | Some st =>
          if JS.is_str st "error" then
            [SetError (JS.or (first_of (JS.get_opt data "errors"))
                         (JS.Str "Upload failed"));
             ClearInterval;
             OnError (JS.get_opt data "errors")]
          else if JS.is_str st "complete" then
            [ClearInterval; OnComplete data]
          else []
      end
  end.

Definition apply (s : State) (e : Effect) : State :=
  match e with
  | SetStatus data =>
      {| status := data; error := error s;
         timer := timer s; inflight := inflight s |}
  | SetError v =>
      {| status := status s; error := v;
         timer := timer s; inflight := inflight s |}
  | ClearInterval =>
      {| status := status s; error := error s;
         timer := None; inflight := inflight s |}
  | OnError _ | OnComplete _ => s
  end.

Inductive Event : Type :=
| Tick                          (* the interval fires *)
| Settle (o : Async.outcome)    (* one pending fetch settles *)
| Unmount.                      (* the effect's cleanup *)

Inductive Output : Type :=
| Get (url : string)
| Called (e : Effect).

Definition callbacks (es : list Effect) : list Output :=
  flat_map (fun e => match e with
                     | OnError _ | OnComplete _ => [Called e]
                     | _ => []
                     end) es.

Definition step (jobId : string) (s : State) (ev : Event)
  : State * list Output :=
  match ev with
  | Tick =>
      match timer s with
      | Some _ =>
          ({| status := status s; error := error s;
              timer := timer s; inflight := S (inflight s) |},
           [Get (upload_url jobId "status")])
      | None => (s, [])
      end
  | Settle o =>
      match inflight s with
      | O => (s, [])
      | S n =>
          let s0 := {| status := status s; error := error s;
                       timer := timer s; inflight := n |} in
          (fold_left apply (settled o) s0, callbacks (settled o))
      end
  | Unmount => (apply s ClearInterval, [])
  end.

Fixpoint run (jobId : string) (s : State) (evs : list Event)
  : State * list Output :=
  match evs with
  | [] => (s, [])
  | ev :: rest =>
      let '(s1, out1) := step jobId s ev in
      let '(s2, out2) := run jobId s1 rest in
      (s2, (out1 ++ out2)%list)
  end.

Definition polls (out : list Output) : list string :=
  flat_map (fun o => match o with Get u => [u] | Called _ => [] end) out.

(** What the component renders from its state. *)
Inductive View : Type :=
| Nothing
| ErrorView (e : JS.value)
| ProgressView (progress count total current_step : JS.value).

Definition render (s : State) : View :=
  if negb (JS.truthy (status s)) then Nothing
  else if JS.truthy (error s) then ErrorView (error s)
  else ProgressView
         (JS.get_opt (status s) "progress")
         (JS.or (JS.get_opt (JS.get_opt (status s) "results") "length")
                (JS.Num 0))
         (JS.get_opt (status s) "total_files")
         (JS.get_opt (status s) "current_step").

(** The reported status is terminal. *)
Definition terminal (data : JS.value) : bool :=
  match JS.get data "status" with
  | Some st => JS.is_str st "error" || JS.is_str st "complete"
  | None => false
  end.

(** The component while it polls, before the first snapshot. *)
Definition polling : State :=
  {| status := JS.Null; error := JS.Null; timer := Some 300%Z;
     inflight := 0 |}.

(** What a poll does with a snapshot, leaving out that the snapshot is
    kept as it is ([setStatus(data)]) and handed on as it is
    ([onComplete(data)]). *)
Inductive Reaction : Type :=
| Kept
| ErrorShown (e : JS.value)
| Stopped
| ErrorsReported (errors : JS.value)
| Completed.

Definition reaction (e : Effect) : Reaction :=
  match e with
  | SetStatus _ => Kept
  | SetError v => ErrorShown v
  | ClearInterval => Stopped
  | OnError v => ErrorsReported v
  | OnComplete _ => Completed
  end.

Definition consume (data : JS.value) : list Reaction * View :=
  (map reaction (settled (Async.Resolved data)),
   render (fold_left apply (settled (Async.Resolved data)) polling)).

(** The fields of a snapshot the component reads. *)
Definition consumed : list string :=
  ["status"; "progress"; "results"; "total_files"; "current_step"; "errors"].

End UploadProgress.

(* ================================================================== *)
(** * The server side of the protocol

    Modelled from the spec: the backend (Job Manager, File Processor,
    Duplicate Resolver, Status Reporter) is not among the sources, which
    hold the web client only.  Every definition of this module follows
    sections 3 to 5 of the specification: one job, its files processed
    strictly one at a time in submission order, a file pausing the job
    while it awaits a duplicate decision or a crop box.  Decoding,
    resampling and storage are abstracted to their outcome: whether the
    bytes are readable, and whether the transform and the commit
    succeed ([io_ok]). *)

Module Pipeline.

Inductive JobStatus : Type := pending | processing | complete | error.

Inductive FileStatus : Type :=
| accepted | duplicate_pending | crop_pending | skipped | errored.

Inductive DupAction : Type := skip | overwrite | import_anyway.

Inductive Failure : Type :=
| NoFilesProvided | NotFound | StateMismatch | InvalidCropBox.

Record UploadFile : Type := {
  uf_name : string;
  uf_readable : bool;
  uf_fingerprint : Z;
  uf_width : Z;
  uf_height : Z
}.

Record LibraryImage : Type := {
  li_id : nat;
  li_original : string;
  li_fingerprint : Z;
  li_width : Z;
  li_height : Z
}.

Record FileResult : Type := {
  fr_filename : string;
  fr_status : FileStatus;
  fr_width : Z;
  fr_height : Z;
  fr_duplicate : option LibraryImage;
  fr_message : option string
}.

Record UploadJob : Type := {
  status : JobStatus;
  total_files : nat;
  processed_count : nat;
  results : list FileResult;
  current_step : string;
  errors : list string
}.

(** What the background task of a job holds besides the job: the files
    not started yet, and the file it is paused on (with the library
    image it matched, or is to overwrite). *)
Record Task : Type := {
  queue : list UploadFile;
  paused : option (UploadFile * option LibraryImage)
}.

Record Server : Type := {
  library : list LibraryImage;
  job : UploadJob;
  task : Task
}.

Definition terminal (s : JobStatus) : bool :=
  match s with
  | complete | error => true
  | pending | processing => false
  end.

(** ** Duplicate Resolver: a fingerprint match wins over a name match *)

Definition findByFingerprint (lib : list LibraryImage) (fp : Z)
  : option LibraryImage :=
  find (fun i => Z.eqb (li_fingerprint i) fp) lib.

Definition findByFilename (lib : list LibraryImage) (name : string)
  : option LibraryImage :=
  find (fun i => String.eqb (li_original i) name) lib.

Definition dup_match (lib : list LibraryImage) (fp : Z) (name : string)
  : option LibraryImage :=
  match findByFingerprint lib fp with
  | Some i => Some i
  | None => findByFilename lib name
  end.

(** ** Library Store writes *)

Definition fresh_id (lib : list LibraryImage) : nat :=
  S (list_max (map li_id lib)).

Definition stored (id : nat) (f : UploadFile) : LibraryImage :=
  {| li_id := id; li_original := uf_name f;
     li_fingerprint := uf_fingerprint f;
     li_width := uf_width f; li_height := uf_height f |}.

Definition commit (target : option LibraryImage) (f : UploadFile)
  (lib : list LibraryImage) : list LibraryImage :=
  match target with
  | Some old =>
      map (fun i => if Nat.eqb (li_id i) (li_id old)
                    then stored (li_id i) f else i) lib
  | None => (lib ++ [stored (fresh_id lib) f])%list
  end.

(** ** Job updates *)

Definition entry (f : UploadFile) (dup : option LibraryImage)
  (st : FileStatus) (msg : option string) : FileResult :=
  {| fr_filename := uf_name f; fr_status := st;
     fr_width := uf_width f; fr_height := uf_height f;
     fr_duplicate := dup; fr_message := msg |}.

Definition with_results (rs : list FileResult) (j : UploadJob) : UploadJob :=
  {| status := status j; total_files := total_files j;
     processed_count := processed_count j; results := rs;
     current_step := current_step j; errors := errors j |}.

Definition with_status (st : JobStatus) (j : UploadJob) : UploadJob :=
  {| status := st; total_files := total_files j;
     processed_count := processed_count j; results := results j;
     current_step := current_step j; errors := errors j |}.

Definition with_step (msg : string) (j : UploadJob) : UploadJob :=
  {| status := status j; total_files := total_files j;
     processed_count := processed_count j; results := results j;
     current_step := msg; errors := errors j |}.

(** A file has left the pipeline (accepted, skipped or errored). *)
Definition count (j : UploadJob) : UploadJob :=
  {| status := status j; total_files := total_files j;
     processed_count := S (processed_count j); results := results j;
     current_step := current_step j; errors := errors j |}.

Definition fail (msg : string) (j : UploadJob) : UploadJob :=
  {| status := status j; total_files := total_files j;
     processed_count := processed_count j; results := results j;
     current_step := current_step j; errors := (errors j ++ [msg])%list |}.

(** Append the entry of a file that has just been started. *)
Definition push (f : UploadFile) (dup : option LibraryImage)
  (st : FileStatus) (msg : option string) (j : UploadJob) : UploadJob :=
  with_results (results j ++ [entry f dup st msg])%list j.

Fixpoint amend_last (st : FileStatus) (msg : option string)
  (rs : list FileResult) : list FileResult :=
  match rs with
  | [] => []
  | [r] => [{| fr_filename := fr_filename r; fr_status := st;
               fr_width := fr_width r; fr_height := fr_height r;
               fr_duplicate := fr_duplicate r; fr_message := msg |}]
  | r :: rest => r :: amend_last st msg rest
  end.

(** Advance the entry of the paused file: it is the last one. *)
Definition amend (st : FileStatus) (msg : option string) (j : UploadJob)
  : UploadJob :=
  with_results (amend_last st msg (results j)) j.

Definition nat_to_string (n : nat) : string :=
  NilEmpty.string_of_uint (Nat.to_uint n).

Definition step_message (f : UploadFile) (j : UploadJob) : string :=
  "Processing " ++ uf_name f ++ " ("
    ++ nat_to_string (S (List.length (results j))) ++ "/"
    ++ nat_to_string (total_files j) ++ ")".

(** ** File Processor *)

Record Config : Type := {
  target_width : Z;
  target_height : Z;
  epsilon : Q
}.

(** Modelled from the spec: the configuration of a deployment, which
    the backend holds and the sources do not: the target canvas
    3840 by 2160 of the scenario of section 8 (the 16:9 target of
    section 4.2), and the tolerance 0.05 that section 4.2 gives as its
    example. *)
Definition default_config : Config :=
  {| target_width := 3840; target_height := 2160; epsilon := 0.05 |}.

Definition target_aspect (cfg : Config) : Q :=
  inject_Z (target_width cfg) / inject_Z (target_height cfg).

Definition near_target (cfg : Config) (f : UploadFile) : bool :=
  Qle_bool
    (Qabs (inject_Z (uf_width f) / inject_Z (uf_height f) - target_aspect cfg))
    (epsilon cfg).

Definition valid_box (b : CropPositioning.CropBox) : bool :=
  Qle_bool 0 (CropPositioning.x b) && Qle_bool 0 (CropPositioning.y b)
  && Qle_bool (CropPositioning.x b + CropPositioning.width b) 1
  && Qle_bool (CropPositioning.y b + CropPositioning.height b) 1
  && negb (Qle_bool (CropPositioning.width b) 0)
  && negb (Qle_bool (CropPositioning.height b) 0).

Inductive Outcome : Type :=
| Accepted
| NeedsCrop
| Failed (msg : string).

Definition transform (io_ok : bool) : Outcome :=
  if io_ok then Accepted else Failed "StorageFailure".

Definition aspect_check (cfg : Config) (io_ok : bool) (f : UploadFile)
  : Outcome :=
  if near_target cfg f then transform io_ok else NeedsCrop.

(** Record the outcome of the aspect check or of the transform for file
    [f]; [write] appends the entry of [f] or advances it. *)
Definition settle (o : Outcome) (f : UploadFile)
  (target : option LibraryImage)
  (write : FileStatus -> option string -> UploadJob -> UploadJob)
  (s : Server) : Server :=
  match o with
  | Accepted =>
      {| library := commit target f (library s);
         job := count (write accepted None (job s));
         task := {| queue := queue (task s); paused := None |} |}
  | NeedsCrop =>
      {| library := library s;
         job := write crop_pending None (job s);
         task := {| queue := queue (task s); paused := Some (f, target) |} |}
  | Failed msg =>
      {| library := library s;
         job := count (fail msg (write errored (Some msg) (job s)));
         task := {| queue := queue (task s); paused := None |} |}
  end.

(** Validating, Hashing, DuplicateCheck and AspectCheck of the next
    file, which has been taken off the queue. *)
Definition start_file (cfg : Config) (io_ok : bool) (f : UploadFile)
  (s : Server) : Server :=
  let s1 := {| library := library s;
               job := with_step (step_message f (job s)) (job s);
               task := task s |} in
  if negb (uf_readable f) then
    settle (Failed "InvalidImage") f None (push f None) s1
  else
    match dup_match (library s) (uf_fingerprint f) (uf_name f) with
    | Some img =>
        {| library := library s1;
           job := push f (Some img) duplicate_pending None (job s1);
           task := {| queue := queue (task s1);
                      paused := Some (f, Some img) |} |}
    | None => settle (aspect_check cfg io_ok f) f None (push f None) s1
    end.

Definition all_errored (rs : list FileResult) : bool :=
  forallb (fun r => match fr_status r with errored => true | _ => false end)
    rs.

(** One turn of the background task. *)
Definition advance (cfg : Config) (io_ok : bool) (s : Server) : Server :=
  match status (job s) with
  | pending =>
      {| library := library s; job := with_status processing (job s);
         task := task s |}
  | processing =>
      match paused (task s), queue (task s) with
      | Some _, _ => s
      | None, [] =>
          {| library := library s;
             job := with_status
                      (if all_errored (results (job s))
                       then error else complete) (job s);
             task := task s |}
      | None, f :: rest =>
          start_file cfg io_ok f
            {| library := library s; job := job s;
               task := {| queue := rest; paused := None |} |}
      end
  | complete | error => s
  end.

(** ** Job Manager *)

Definition submit (lib : list LibraryImage) (files : list UploadFile)
  : Failure + Server :=
  match files with
  | [] => inl NoFilesProvided
  | _ =>
      inr {| library := lib;
             job := {| status := pending;
                       total_files := List.length files;
                       processed_count := 0;
                       results := [];
                       current_step := "Queued";
                       errors := [] |};
             task := {| queue := files; paused := None |} |}
  end.

Definition known (name : string) (s : Server) : bool :=
  existsb (fun r => String.eqb (fr_filename r) name) (results (job s))
  || existsb (fun f => String.eqb (uf_name f) name) (queue (task s)).

(** The file the job is paused on, when it is [name] and awaits [st]. *)
Definition awaiting (name : string) (st : FileStatus) (s : Server)
  : option (UploadFile * option LibraryImage) :=
  match paused (task s), last (map Some (results (job s))) None with
  | Some (f, img), Some r =>
      if String.eqb (uf_name f) name
         && match fr_status r, st with
            | duplicate_pending, duplicate_pending => true
            | crop_pending, crop_pending => true
            | _, _ => false
            end
      then Some (f, img) else None
  | _, _ => None
  end.

Definition resolveDuplicate (cfg : Config) (name : string)
  (action : DupAction) (io_ok : bool) (s : Server) : Failure + Server :=
  if negb (known name s) then inl NotFound
  else
    match awaiting name duplicate_pending s with
    | None => inl StateMismatch
    | Some (f, img) =>
        match action with
        | skip =>
            inr {| library := library s;
                   job := count (amend skipped None (job s));
                   task := {| queue := queue (task s); paused := None |} |}
        | overwrite =>
            inr (settle (aspect_check cfg io_ok f) f img amend s)
        | import_anyway =>
            inr (settle (aspect_check cfg io_ok f) f None amend s)
        end
    end.

Definition resolvePosition (name : string) (box : CropPositioning.CropBox)
  (io_ok : bool) (s : Server) : Failure + Server :=
  if negb (known name s) then inl NotFound
  else
    match awaiting name crop_pending s with
    | None => inl StateMismatch
    | Some (f, target) =>
        if valid_box box
        then inr (settle (transform io_ok) f target amend s)
        else inl InvalidCropBox
    end.

Inductive Event : Type :=
| Advance (io_ok : bool)
| ResolveDuplicate (name : string) (action : DupAction) (io_ok : bool)
| ResolvePosition (name : string) (box : CropPositioning.CropBox)
    (io_ok : bool).

Definition call (cfg : Config) (s : Server) (ev : Event) : Failure + Server :=
  match ev with
  | Advance io_ok => inr (advance cfg io_ok s)
  | ResolveDuplicate name action io_ok =>
      resolveDuplicate cfg name action io_ok s
  | ResolvePosition name box io_ok => resolvePosition name box io_ok s
  end.

(** A call that fails leaves the server as it was. *)
Definition step (cfg : Config) (s : Server) (ev : Event) : Server :=
  match call cfg s ev with
  | inr s' => s'
  | inl _ => s
  end.

Definition run (cfg : Config) (evs : list Event) (s : Server) : Server :=
  fold_left (step cfg) evs s.

(** ** Status Reporter *)

Definition job_status_name (s : JobStatus) : string :=
  match s with
  | pending => "pending"
  | processing => "processing"
  | complete => "complete"
  | error => "error"
  end.

Definition file_status_name (s : FileStatus) : string :=
  match s with
  | accepted => "accepted"
  | duplicate_pending => "duplicate_pending"
  | crop_pending => "crop_pending"
  | skipped => "skipped"
  | errored => "error"
  end.

(** [floor(processed_count / total_files * 100)] *)
Definition progress (j : UploadJob) : Z :=
  Qfloor (inject_Z (Z.of_nat (processed_count j))
          / inject_Z (Z.of_nat (total_files j)) * 100).

Definition result_json (r : FileResult) : JS.value :=
  JS.Obj [("filename", JS.Str (fr_filename r));
          ("status", JS.Str (file_status_name (fr_status r)));
          ("aspect_info",
           JS.Obj [("width", JS.Num (inject_Z (fr_width r)));
                   ("height", JS.Num (inject_Z (fr_height r)));
                   ("aspect", JS.Num (inject_Z (fr_width r)
                                      / inject_Z (fr_height r)))])].

Definition snapshot (j : UploadJob) : JS.value :=
  JS.Obj [("status", JS.Str (job_status_name (status j)));
          ("progress", JS.Num (inject_Z (progress j)));
          ("results", JS.Arr (map result_json (results j)));
          ("total_files", JS.Num (inject_Z (Z.of_nat (total_files j))));
          ("current_step", JS.Str (current_step j));
          ("errors", JS.Arr (map JS.Str (errors j)))].

(** ** Order of the results *)

(** The filenames of the results, in their order. *)
Definition names (s : Server) : list string :=
  map fr_filename (results (job s)).

(** The results, followed by the files not started yet, are the batch in
    the order it was submitted; a terminal job has started every file. *)
Definition in_order (files : list UploadFile) (s : Server) : Prop :=
  (names s ++ map uf_name (queue (task s)))%list = map uf_name files
  /\ total_files (job s) = List.length files
  /\ (terminal (status (job s)) = true -> queue (task s) = []).

(** A job update that appends the entries [extra] and leaves the status
    and the total alone. *)
Definition appends (extra : list string)
  (write : FileStatus -> option string -> UploadJob -> UploadJob) : Prop :=
  forall st msg j,
    status (write st msg j) = status j
    /\ total_files (write st msg j) = total_files j
    /\ map fr_filename (results (write st msg j))
       = (map fr_filename (results j) ++ extra)%list.

Definition keys (v : JS.value) : list string :=
  match v with
  | JS.Obj fields => map fst fields
  | _ => []
  end.

End Pipeline.

(* ================================================================== *)
(** * The scenario of the specification

    A batch [a.jpg (1920x1080); b.jpg (a duplicate of the stored c.jpg);
    d.png (800x800)] against the 3840x2160 canvas. *)

Module Scenario.

Definition jobId : string := "job-1".

Definition a_jpg : Pipeline.UploadFile :=
  {| Pipeline.uf_name := "a.jpg"; Pipeline.uf_readable := true;
     Pipeline.uf_fingerprint := 101;
     Pipeline.uf_width := 1920; Pipeline.uf_height := 1080 |}.

Definition b_jpg : Pipeline.UploadFile :=
  {| Pipeline.uf_name := "b.jpg"; Pipeline.uf_readable := true;
     Pipeline.uf_fingerprint := 202;
     Pipeline.uf_width := 1600; Pipeline.uf_height := 900 |}.

Definition d_png : Pipeline.UploadFile :=
  {| Pipeline.uf_name := "d.png"; Pipeline.uf_readable := true;
     Pipeline.uf_fingerprint := 303;
     Pipeline.uf_width := 800; Pipeline.uf_height := 800 |}.

Definition c_jpg : Pipeline.LibraryImage :=
  {| Pipeline.li_id := 7; Pipeline.li_original := "c.jpg";
     Pipeline.li_fingerprint := 202;
     Pipeline.li_width := 1600; Pipeline.li_height := 900 |}.

Definition batch : list Pipeline.UploadFile := [a_jpg; b_jpg; d_png].

Definition box : CropPositioning.CropBox :=
  {| CropPositioning.x := 0; CropPositioning.y := 0.1;
     CropPositioning.width := 1; CropPositioning.height := 0.8 |}.

(** The task runs, pauses on b.jpg and on d.png, and finishes. *)
Definition calls : list Pipeline.Event :=
  [Pipeline.Advance true; Pipeline.Advance true; Pipeline.Advance true;
   Pipeline.ResolveDuplicate "b.jpg" Pipeline.skip true;
   Pipeline.Advance true;
   Pipeline.ResolvePosition "d.png" box true;
   Pipeline.Advance true].

Definition submitted : Pipeline.Server :=
  match Pipeline.submit [c_jpg] batch with
  | inr s => s
  | inl _ =>
      {| Pipeline.library := [];
         Pipeline.job :=
           {| Pipeline.status := Pipeline.error; Pipeline.total_files := 0;
              Pipeline.processed_count := 0; Pipeline.results := [];
              Pipeline.current_step := "NoFilesProvided";
              Pipeline.errors := [] |};
         Pipeline.task := {| Pipeline.queue := []; Pipeline.paused := None |} |}
  end.

(** The entries the client is shown for the two paused files. *)
Definition b_entry : FileEntry :=
  {| filename := "b.jpg"; thumbnail := "data:image/jpeg;base64,b";
     aspect_info := {| ai_width := 1600; ai_height := 900;
                       ai_aspect := 16 / 9 |} |}.

Definition d_entry : FileEntry :=
  {| filename := "d.png"; thumbnail := "data:image/png;base64,d";
     aspect_info := {| ai_width := 800; ai_height := 800; ai_aspect := 1 |} |}.

(** A drag of the crop box inside a preview at (10, 20). *)
Definition drag : list CropPositioning.Event :=
  let rect := Some {| CropPositioning.left := 10;
                      CropPositioning.top := 20 |} in
  [CropPositioning.MouseDown
     {| CropPositioning.clientX := 120; CropPositioning.clientY := 80 |} rect;
   CropPositioning.MouseMove
     {| CropPositioning.clientX := 150; CropPositioning.clientY := 500 |} rect;
   CropPositioning.MouseMove
     {| CropPositioning.clientX := 130; CropPositioning.clientY := 90 |} rect;
   CropPositioning.MouseUp].

(** Bodies a server may answer with. *)
Definition ack : JS.value := JS.Obj [("status", JS.Str "ok")].


Definition processing_snapshot : JS.value :=
  JS.Obj [("status", JS.Str "processing");
          ("progress", JS.Num 33);
          ("results", JS.Arr []);
          ("total_files", JS.Num 3);
          ("current_step", JS.Str "Processing b.jpg (2/3)");
          ("errors", JS.Arr [])].

Definition complete_snapshot : JS.value :=
  JS.Obj [("status", JS.Str "complete");
          ("progress", JS.Num 100);
          ("results", JS.Arr []);
          ("total_files", JS.Num 3);
          ("current_step", JS.Str "Processing d.png (3/3)");
          ("errors", JS.Arr [])].

End Scenario.

(* ================================================================== *)
(** * The runtime the gallery code relies on *)

(** The string methods the components call.  They belong to the
    JavaScript runtime, not to the sources, and are taken as a
    parameter: what is proved of the components holds for every
    interpretation of them. *)
Module Runtime.

Record Builtins : Type := {
  toLowerCase : string -> string;
  trim : string -> string;
  includes : string -> string -> bool;       (* [s.includes(sub)] *)
  split : string -> string -> list string    (* [s.split(sep)] *)
}.

(** A string in a condition: the empty string is falsy. *)
Definition nonempty (s : string) : bool := JS.truthy (JS.Str s).

(** An interpretation on plain ASCII text. *)
Definition lower_char (c : Ascii.ascii) : Ascii.ascii :=
  let n := Ascii.nat_of_ascii c in
  if (Nat.leb 65 n && Nat.leb n 90)%bool
  then Ascii.ascii_of_nat (n + 32) else c.

Fixpoint ascii_lower (s : string) : string :=
  match s with
  | EmptyString => EmptyString
  | String c rest => String (lower_char c) (ascii_lower rest)
  end.

Definition is_space (c : Ascii.ascii) : bool :=
  let n := Ascii.nat_of_ascii c in
  (Nat.eqb n 32 || (Nat.leb 9 n && Nat.leb n 13))%bool.

Fixpoint trim_left (s : string) : string :=
  match s with
  | String c rest => if is_space c then trim_left rest else s
  | EmptyString => EmptyString
  end.

Fixpoint rev_string (acc s : string) : string :=
  match s with
  | EmptyString => acc
  | String c rest => rev_string (String c acc) rest
  end.

Definition ascii_trim (s : string) : string :=
  rev_string EmptyString
    (trim_left (rev_string EmptyString (trim_left s))).

Fixpoint ascii_includes (s sub : string) : bool :=
  (String.prefix sub s
   || match s with
      | EmptyString => false
      | String _ rest => ascii_includes rest sub
      end)%bool.

(** Splitting at a separator of one character. *)
Fixpoint split_at (sep : Ascii.ascii) (piece s : string) : list string :=
  match s with
  | EmptyString => [rev_string EmptyString piece]
  | String c rest =>
      if Ascii.eqb c sep
      then rev_string EmptyString piece :: split_at sep EmptyString rest
      else split_at sep (String c piece) rest
  end.

Definition ascii_split (s sep : string) : list string :=
  match sep with
  | String c EmptyString => split_at c EmptyString s
  | _ => [s]
  end.

Definition ascii : Builtins :=
  {| toLowerCase := ascii_lower; trim := ascii_trim;
     includes := ascii_includes; split := ascii_split |}.

End Runtime.

(** [Set]: the elements in insertion order, each once. *)
Module JSSet.

Section Elements.
Variable A : Type.
Variable eqb : A -> A -> bool.

Definition has (x : A) (s : list A) : bool := existsb (eqb x) s.

Definition add (x : A) (s : list A) : list A :=
  if has x s then s else (s ++ [x])%list.

Definition delete (x : A) (s : list A) : list A :=
  filter (fun y => negb (eqb x y)) s.

(** [new Set(array)] *)
Definition of_list (l : list A) : list A :=
  fold_left (fun s x => add x s) l [].
End Elements.

Arguments has {A} eqb x s.
Arguments add {A} eqb x s.
Arguments delete {A} eqb x s.
Arguments of_list {A} eqb l.

End JSSet.

(** [localStorage] *)
Module Storage.

Definition t : Type := list (string * string).

Fixpoint getItem (k : string) (st : t) : option string :=
  match st with
  | [] => None
  | (k', v) :: rest => if String.eqb k k' then Some v else getItem k rest
  end.

Fixpoint setItem (k v : string) (st : t) : t :=
  match st with
  | [] => [(k, v)]
  | (k', v') :: rest =>
      if String.eqb k k' then (k, v) :: rest
      else (k', v') :: setItem k v rest
  end.

(** [getItem] in a condition: [null] and the empty string are falsy. *)
Definition truthy (v : option string) : bool :=
  match v with
  | Some s => Runtime.nonempty s
  | None => false
  end.

End Storage.

(* ================================================================== *)
(** * The gallery: App, ImageDetailModal and SmartTagInput
    (components/modals/ImageDetailModal.jsx, whose last part is the App
    component, and components/common/CommonTagsBar.jsx for
    SmartTagInput) *)

Module Gallery.

Record Tag : Type := { tag_id : Z; tag_name : string }.

Record Image : Type := {
  img_path : string;
  img_name : string;
  img_tags : list Tag
}.

(** ** ImageDetailModal *)

(** The [image] prop; [tags] may be missing ([image.tags?.map]). *)
Record DetailImage : Type := {
  di_id : Z;
  di_name : string;
  di_tags : option (list Tag)
}.

Definition appliedTagIds (image : DetailImage) : list Z :=
  JSSet.of_list Z.eqb
    (match di_tags image with
     | Some ts => map tag_id ts
     | None => []
     end).

Definition detailAvailableTags (tags : list Tag) (image : DetailImage)
  : list Tag :=
  filter (fun tag => negb (JSSet.has Z.eqb (tag_id tag) (appliedTagIds image)))
    tags.

(** ** SmartTagInput *)

Section WithBuiltins.
Variable B : Runtime.Builtins.

Definition filteredTags (tags : list Tag) (searchQuery : string)
  : list Tag :=
  filter (fun tag =>
            Runtime.includes B (Runtime.toLowerCase B (tag_name tag))
              (Runtime.toLowerCase B searchQuery))
    tags.

Definition canCreateTag (tags : list Tag) (searchQuery : string) : bool :=
  Runtime.nonempty (Runtime.trim B searchQuery)
  && negb (existsb
             (fun t => String.eqb (Runtime.toLowerCase B (tag_name t))
                         (Runtime.toLowerCase B searchQuery))
             (filteredTags tags searchQuery)).

(** ** App: search *)

Definition filteredImages (images : list Image) (searchQuery : string)
  : list Image :=
  filter (fun img =>
            if negb (Runtime.nonempty (Runtime.trim B searchQuery)) then true
            else
              let query := Runtime.toLowerCase B searchQuery in
              Runtime.includes B (Runtime.toLowerCase B (img_name img)) query
              || existsb
                   (fun tag =>
                      Runtime.includes B
                        (Runtime.toLowerCase B (tag_name tag)) query)
                   (img_tags img))
    images.

(** ** App: the tag creation dialog *)

(** [handleCreateTags]: the argument of [setTagPreview], when it is
    called. *)
Definition handleCreateTags (tagInput : string) : option (list string) :=
  if negb (Runtime.nonempty (Runtime.trim B tagInput)) then None
  else
    let newTagNames :=
      filter Runtime.nonempty
        (map (Runtime.trim B) (Runtime.split B tagInput ",")) in
    match newTagNames with
    | [] => None
    | _ => Some newTagNames
    end.

End WithBuiltins.

(** ** App: selection *)

Definition toggleSelectImage (imagePath : string)
  (selectedImages : list string) : list string :=
  if JSSet.has String.eqb imagePath selectedImages
  then JSSet.delete String.eqb imagePath selectedImages
  else JSSet.add String.eqb imagePath selectedImages.

Definition selectAllImages (filtered : list Image) : list string :=
  JSSet.of_list String.eqb (map img_path filtered).

Definition clearSelection : list string := [].

(** [Array.from(selectedImages).map(path => images.find(...))
      .filter(img => img)] *)
Definition selectedImageList (images : list Image)
  (selectedImages : list string) : list Image :=
  flat_map
    (fun path =>
       match find (fun img => String.eqb (img_path img) path) images with
       | Some img => [img]
       | None => []
       end)
    selectedImages.

Definition getCommonTags (images : list Image)
  (selectedImages : list string) (tags : list Tag) : list Tag :=
  match selectedImages with
  | [] => []
  | _ =>
      match selectedImageList images selectedImages with
      | [] => []
      | (first :: _) as selected =>
          let firstImageTags :=
            JSSet.of_list Z.eqb (map tag_id (img_tags first)) in
          let commonTagIds :=
            filter
              (fun tagId =>
                 forallb
                   (fun img =>
                      existsb (fun t => Z.eqb (tag_id t) tagId) (img_tags img))
                   selected)
              firstImageTags in
          filter (fun tag => existsb (Z.eqb (tag_id tag)) commonTagIds) tags
      end
  end.

(** [tags.filter(tag => !selectedImage?.tags.some(...))] *)
Definition availableTags (tags : list Tag) (selectedImage : option Image)
  : list Tag :=
  filter
    (fun tag =>
       negb match selectedImage with
            | Some img =>
                existsb (fun t => Z.eqb (tag_id t) (tag_id tag)) (img_tags img)
            | None => false
            end)
    tags.

(** ** App: requests *)

Definition API_URL : string := "http://localhost:8003/api".

(** A query parameter, before [encodeURIComponent] and the template
    string turn it into text. *)
Inductive Param : Type :=
| PStr (s : string)
| PNum (z : Z).

Record Request : Type := {
  rq_method : string;
  rq_url : string;
  rq_query : list (string * Param)
}.

Inductive Effect : Type :=
| SetImages (v : JS.value)
| SetTags (v : JS.value)
| SetSelectedImage (img : Image)
| SetBatchTagSearch (s : string)
| SetTagInput (s : string)
| SetTagPreview (names : option (list string))
| SetShowTagModal (b : bool)
| ConsoleError (message : string).

Definition prog : Type := Async.prog Request Effect.

Definition get (what : string) : Request :=
  {| rq_method := "GET"; rq_url := API_URL ++ what; rq_query := [] |}.

(** [loadImages] and [loadTags] catch what they throw, so whoever awaits
    them goes on ([k]) in every case. *)
Definition loadImages (k : prog) : prog :=
  Async.Fetch (get "/images")
    (fun o =>
       match o with
       | Async.Rejected m => Async.Emit (ConsoleError m) k
       | Async.Resolved data =>
           match JS.get data "images" with
           | Some v => Async.Emit (SetImages (JS.or v (JS.Arr []))) k
           | None => Async.Emit (ConsoleError "TypeError") k
           end
       end).

Definition loadTags (k : prog) : prog :=
  Async.Fetch (get "/tags")
    (fun o =>
       match o with
       | Async.Rejected m => Async.Emit (ConsoleError m) k
       | Async.Resolved data =>
           match JS.get data "tags" with
           | Some v => Async.Emit (SetTags (JS.or v (JS.Arr []))) k
           | None => Async.Emit (ConsoleError "TypeError") k
           end
       end).

(** [for (const x of xs) { await fetch(...) }] inside a [try] whose
    [catch] logs the message: the first rejected fetch ends the loop and
    the function. *)
Fixpoint for_each (reqs : list Request) (k : prog) : prog :=
  match reqs with
  | [] => k
  | r :: rest =>
      Async.Fetch r
        (fun o =>
           match o with
           | Async.Rejected m => Async.Emit (ConsoleError m) Async.Done
           | Async.Resolved _ => for_each rest k
           end)
  end.

Definition createTagRequest (name : string) : Request :=
  {| rq_method := "POST"; rq_url := API_URL ++ "/tags";
     rq_query := [("name", PStr name)] |}.

Definition confirmCreateTags (tagPreview : option (list string)) : prog :=
  match tagPreview with
  | None => Async.Done
  | Some names =>
      for_each (map createTagRequest names)
        (loadTags
           (Async.Emit (SetTagInput EmptyString)
              (Async.Emit (SetTagPreview None)
                 (Async.Emit (SetShowTagModal false) Async.Done))))
  end.

Definition tagRequest (method imagePath : string) (tagId : Z) : Request :=
  {| rq_method := method; rq_url := API_URL ++ "/images/tag";
     rq_query := [("image_path", PStr imagePath); ("tag_id", PNum tagId)] |}.

Definition addTagToSelected (selectedImages : list string) (tagId : Z)
  : prog :=
  for_each (map (fun p => tagRequest "POST" p tagId) selectedImages)
    (loadImages (Async.Emit (SetBatchTagSearch EmptyString) Async.Done)).

Definition removeTagFromSelected (selectedImages : list string) (tagId : Z)
  : prog :=
  for_each (map (fun p => tagRequest "DELETE" p tagId) selectedImages)
    (loadImages Async.Done).

(** [{...selectedImage, tags: [...selectedImage.tags, tagToAdd]}] *)
Definition withTagAdded (img : Image) (t : Tag) : Image :=
  {| img_path := img_path img; img_name := img_name img;
     img_tags := (img_tags img ++ [t])%list |}.

(** [{...selectedImage, tags: selectedImage.tags.filter(t => t.id !== tagId)}] *)
Definition withTagRemoved (img : Image) (tagId : Z) : Image :=
  {| img_path := img_path img; img_name := img_name img;
     img_tags := filter (fun t => negb (Z.eqb (tag_id t) tagId))
                   (img_tags img) |}.

Definition addTagToImage (tags : list Tag) (selectedImage : option Image)
  (tagId : Z) : prog :=
  match selectedImage with
  | None => Async.Done
  | Some img =>
      Async.Fetch (tagRequest "POST" (img_path img) tagId)
        (fun o =>
           match o with
           | Async.Rejected m => Async.Emit (ConsoleError m) Async.Done
           | Async.Resolved data =>
               match JS.get data "error" with
               | None => Async.Emit (ConsoleError "TypeError") Async.Done
               | Some e =>
                   if negb (JS.truthy e) then
                     match find (fun t => Z.eqb (tag_id t) tagId) tags with
                     | Some tagToAdd =>
                         Async.Emit
                           (SetSelectedImage (withTagAdded img tagToAdd))
                           (loadImages Async.Done)
                     | None => loadImages Async.Done
                     end
                   else Async.Done
               end
           end)
  end.

Definition removeTagFromImage (selectedImage : option Image) (tagId : Z)
  : prog :=
  match selectedImage with
  | None => Async.Done
  | Some img =>
      Async.Fetch (tagRequest "DELETE" (img_path img) tagId)
        (fun o =>
           match o with
           | Async.Rejected m => Async.Emit (ConsoleError m) Async.Done
           | Async.Resolved _ =>
               Async.Emit (SetSelectedImage (withTagRemoved img tagId))
                 (loadImages Async.Done)
           end)
  end.

(** The server answers the request (the fetch is not rejected). *)
Definition resolves (server : Request -> Async.outcome) (r : Request)
  : Prop :=
  exists data, server r = Async.Resolved data.

(** ** App: the theme *)

(** [useState(() => localStorage.getItem('theme') || 'dark')] *)
Definition initialTheme (st : Storage.t) : string :=
  match Storage.getItem "theme" st with
  | Some s => if Runtime.nonempty s then s else "dark"
  | None => "dark"
  end.

(** The effect on [theme]: [localStorage.setItem('theme', theme)]. *)
Definition applyTheme (theme : string) (st : Storage.t) : Storage.t :=
  Storage.setItem "theme" theme st.

End Gallery.

(** * InfoBanner (the welcome dialog) *)

Module InfoBanner.

Definition key : string := "framefolioInfoBannerDismissed".

(** [isVisible] once the mount effect has run. *)
Definition mount (st : Storage.t) : bool :=
  negb (Storage.truthy (Storage.getItem key st)).

(** [handleClose]: the storage and [isVisible] afterwards. *)
Definition handleClose (dontShowAgain : bool) (st : Storage.t)
  : Storage.t * bool :=
  (if dontShowAgain then Storage.setItem key "true" st else st, false).

End InfoBanner.

(** Sample data of the gallery. *)
Module GalleryScenario.

Definition nature : Gallery.Tag :=
  {| Gallery.tag_id := 1; Gallery.tag_name := "Nature" |}.
Definition city : Gallery.Tag :=
  {| Gallery.tag_id := 2; Gallery.tag_name := "City" |}.
Definition night : Gallery.Tag :=
  {| Gallery.tag_id := 3; Gallery.tag_name := "Night" |}.

Definition tags : list Gallery.Tag := [nature; city; night].

Definition lake : Gallery.Image :=
  {| Gallery.img_path := "/mnt/a/lake.jpg"; Gallery.img_name := "lake.jpg";
     Gallery.img_tags := [nature; night] |}.
Definition street : Gallery.Image :=
  {| Gallery.img_path := "/mnt/a/street.jpg";
     Gallery.img_name := "street.jpg";
     Gallery.img_tags := [city; night] |}.

Definition images : list Gallery.Image := [lake; street].

Definition detail : Gallery.DetailImage :=
  {| Gallery.di_id := 10; Gallery.di_name := "lake.jpg";
     Gallery.di_tags := Some [nature] |}.

Definition storage : Storage.t := [("theme", "light")].

(** A server that accepts everything. *)
Definition accepting (r : Gallery.Request) : Async.outcome :=
  Async.Resolved (JS.Obj [("status", JS.Str "ok")]).

(** A server that cannot be reached for the second image. *)
Definition flaky (r : Gallery.Request) : Async.outcome :=
  match Gallery.rq_query r with
  | ("image_path", Gallery.PStr "/mnt/a/street.jpg") :: _ =>
      Async.Rejected "Failed to fetch"
  | _ => Async.Resolved (JS.Obj [("status", JS.Str "ok")])
  end.

End GalleryScenario.

(* ================================================================== *)
(** * Properties of the crop positioning modal *)

Section CropFacts.
Import CropPositioning.

Variable result : FileEntry.
Variable jobId : string.

(** An invariant of the steps holds after every session. *)
Lemma play_invariant (P : State -> Prop) :
  (forall s ev, P s -> P (step (aspect_info result) s ev)) ->
  forall evs s, P s -> P (play (aspect_info result) evs s).
Proof.
  intros Hstep evs.
  induction evs as [|ev evs IH]; intros s Hs; simpl.
  - exact Hs.
  - apply IH, Hstep, Hs.
Qed.

Lemma clamp_range (lo v : Q) :
  0 <= lo -> 0 <= Qmax 0 (Qmin lo v) /\ Qmax 0 (Qmin lo v) <= lo.
Proof.
  intros Hlo. split.
  - apply Q.le_max_l.
  - apply Q.max_lub; [exact Hlo | apply Q.le_min_l].
Qed.

Lemma moveBox_valid (dx dy : Q) (b : CropBox) :
  valid b -> valid (moveBox dx dy b).
Proof.
  unfold valid, moveBox; simpl.
  intros (Hx & Hy & Hxw & Hyh & Hw & Hh).
  destruct (clamp_range (1 - width b) (x b + dx)) as [Hx0 Hx1]; [lra|].
  destruct (clamp_range (1 - height b) (y b + dy)) as [Hy0 Hy1]; [lra|].
  repeat split; try assumption; lra.
Qed.

Lemma step_valid (s : State) (ev : Event) :
  valid (cropBox s) -> valid (cropBox (step (aspect_info result) s ev)).
Proof.
  intros Hs. destruct ev as [e ref|e ref|]; simpl.
  - unfold handleMouseDown. destruct ref; exact Hs.
  - unfold handleMouseMove.
    destruct (isDragging s), ref; simpl; try exact Hs.
    apply moveBox_valid, Hs.
  - exact Hs.
Qed.

Lemma initial_valid : valid (cropBox initial).
Proof. unfold valid; simpl. repeat split; lra. Qed.

Lemma step_size (s : State) (ev : Event) :
  width (cropBox (step (aspect_info result) s ev)) = width (cropBox s)
  /\ height (cropBox (step (aspect_info result) s ev)) = height (cropBox s).
Proof.
  destruct ev as [e ref|e ref|]; simpl.
  - unfold handleMouseDown. destruct ref; split; reflexivity.
  - unfold handleMouseMove.
    destruct (isDragging s), ref; split; reflexivity.
  - split; reflexivity.
Qed.

(** Confirming sends one request, whatever the server answers: the
    position of the current crop box under the file's name. *)
Lemma submitted_request (evs : list Event)
  (server : Request -> Async.outcome) :
  submitted result jobId evs server
  = [{| req_url := upload_url jobId "position";
        req_body := {| pb_filename := filename result;
                       pb_crop_box :=
                         cropBox (play (aspect_info result) evs initial)
                    |} |}].
Proof.
  unfold submitted, handleSubmit. simpl.
  match goal with |- context [server ?r] => destruct (server r) as [m|data] end.
  - reflexivity.
  - destruct (JS.get data "error") as [err|]; [|reflexivity].
    destruct (negb (JS.truthy err)); reflexivity.
Qed.

(** C1: from the default crop box, after every finite sequence of mouse
    events (presses, drag moves by arbitrary deltas, releases) on a
    preview of positive dimensions, the crop box carried by the position
    request satisfies the CropBox invariants: 0 <= x, 0 <= y,
    x + width <= 1, y + height <= 1, 0 < width and 0 < height.  The
    clamping alone gives the bounds; the positive dimensions are what
    makes the deltas numbers in the first place. *)
Theorem crop_request_valid (evs : list Event)
  (server : Request -> Async.outcome) :
  0 < previewWidth (aspect_info result) ->
  0 < previewHeight (aspect_info result) ->
  submitted result jobId evs server <> []
  /\ Forall (fun r => valid (pb_crop_box (req_body r)))
       (submitted result jobId evs server).
Proof.
  intros _ _. rewrite submitted_request. split; [discriminate|].
  constructor; [|constructor]. simpl.
  apply (play_invariant (fun s => valid (cropBox s))).
  - intros s ev. apply step_valid.
  - apply initial_valid.
Qed.

(** C8: a drag-move update changes only x and y of the crop box; width
    and height keep their initial values, so the crop box of the
    position request has width 0.8 and height 0.8 after every sequence
    of mouse events. *)
Theorem crop_size_frame :
  (forall e ref s,
      width (cropBox (handleMouseMove (aspect_info result) e ref s))
      = width (cropBox s)
      /\ height (cropBox (handleMouseMove (aspect_info result) e ref s))
         = height (cropBox s))
  /\ (forall evs server,
         map (fun r => (width (pb_crop_box (req_body r)),
                        height (pb_crop_box (req_body r))))
           (submitted result jobId evs server)
         = [(0.8, 0.8)]).
Proof.
  split.
  - intros e ref s. exact (step_size s (MouseMove e ref)).
  - intros evs server. rewrite submitted_request. simpl.
    assert (H : width (cropBox (play (aspect_info result) evs initial)) = 0.8
                /\ height (cropBox (play (aspect_info result) evs initial))
                   = 0.8).
    { apply (play_invariant
               (fun s => width (cropBox s) = 0.8 /\ height (cropBox s) = 0.8)).
      - intros s ev [Hw Hh]. destruct (step_size s ev) as [-> ->].
        split; assumption.
      - split; reflexivity. }
    destruct H as [-> ->]. reflexivity.
Qed.

End CropFacts.

(** C3: the crop positioning modal starts from the crop box x = 0.1,
    y = 0.1, width = 0.8, height = 0.8, the default crop box of the
    specification, and confirming without dragging sends exactly that
    box. *)
Theorem crop_box_default (result : FileEntry) (jobId : string)
  (server : CropPositioning.Request -> Async.outcome) :
  CropPositioning.x (CropPositioning.cropBox CropPositioning.initial) = 0.1
  /\ CropPositioning.y (CropPositioning.cropBox CropPositioning.initial) = 0.1
  /\ CropPositioning.width (CropPositioning.cropBox CropPositioning.initial)
     = 0.8
  /\ CropPositioning.height (CropPositioning.cropBox CropPositioning.initial)
     = 0.8
  /\ map (fun r => CropPositioning.pb_crop_box (CropPositioning.req_body r))
       (CropPositioning.submitted result jobId [] server)
     = [{| CropPositioning.x := 0.1; CropPositioning.y := 0.1;
           CropPositioning.width := 0.8; CropPositioning.height := 0.8 |}].
Proof.
  rewrite submitted_request. repeat split.
Qed.

Section PreviewFacts.
Import CropPositioning.

Lemma Qgtb_true (p q : Q) : Qgtb p q = true <-> q < p.
Proof.
  unfold Qgtb. rewrite negb_true_iff. split.
  - intros H. apply Qnot_le_lt. intros Hle.
    apply Qle_bool_iff in Hle. congruence.
  - intros H. destruct (Qle_bool p q) eqn:E; [|reflexivity].
    apply Qle_bool_iff in E. lra.
Qed.

Lemma Qgtb_false (p q : Q) : Qgtb p q = false <-> p <= q.
Proof.
  unfold Qgtb. rewrite negb_false_iff. apply Qle_bool_iff.
Qed.

Lemma displayAspect_pos (a : AspectInfo) :
  0 < ai_width a -> 0 < ai_height a -> 0 < displayAspect a.
Proof.
  intros Hw Hh. unfold displayAspect.
  apply Qlt_shift_div_l; [exact Hh | lra].
Qed.

(** C10: for a source image of positive width and height, the preview
    is at most 400 wide and 400 high, one of the two is 400, and
    previewWidth / previewHeight equals width / height (in exact
    arithmetic). *)
Theorem preview_fits (a : AspectInfo) :
  0 < ai_width a -> 0 < ai_height a ->
  previewWidth a <= 400
  /\ previewHeight a <= 400
  /\ (previewWidth a = 400 \/ previewHeight a = 400)
  /\ previewWidth a / previewHeight a == ai_width a / ai_height a.
Proof.
  intros Hw Hh.
  pose proof (displayAspect_pos a Hw Hh) as Hpos.
  assert (Hone : maxWidth / maxHeight == 1) by reflexivity.
  unfold previewWidth, previewHeight, preview.
  destruct (Qgtb (displayAspect a) (maxWidth / maxHeight)) eqn:E; simpl.
  - apply Qgtb_true in E. rewrite Hone in E.
    repeat split.
    + unfold maxWidth. lra.
    + unfold maxWidth. apply Qle_shift_div_r; [exact Hpos | lra].
    + left. reflexivity.
    + fold (displayAspect a). unfold maxWidth. field; lra.
  - apply Qgtb_false in E. rewrite Hone in E.
    repeat split.
    + unfold maxHeight. nra.
    + unfold maxHeight. lra.
    + right. reflexivity.
    + fold (displayAspect a). unfold maxHeight. field; lra.
Qed.

(** The preview of an image of positive size has positive sides. *)
Lemma preview_positive (a : AspectInfo) :
  0 < ai_width a -> 0 < ai_height a ->
  0 < previewWidth a /\ 0 < previewHeight a.
Proof.
  intros Hw Hh.
  pose proof (displayAspect_pos a Hw Hh) as Hpos.
  unfold previewWidth, previewHeight, preview.
  destruct (Qgtb _ _); simpl; unfold maxWidth, maxHeight; split;
    try lra; try nra.
  apply Qlt_shift_div_l; [exact Hpos | lra].
Qed.

Lemma Qle_bool_Qeq (p q e : Q) : p == q -> Qle_bool p e = Qle_bool q e.
Proof.
  intros H.
  destruct (Qle_bool p e) eqn:Ep, (Qle_bool q e) eqn:Eq; try reflexivity.
  - apply Qle_bool_iff in Ep. rewrite H in Ep. apply Qle_bool_iff in Ep.
    congruence.
  - apply Qle_bool_iff in Eq. rewrite <- H in Eq. apply Qle_bool_iff in Eq.
    congruence.
Qed.

(** The aspect check compares the aspect of the file with 16 / 9. *)
Lemma near_target_16_9 (f : Pipeline.UploadFile) :
  Pipeline.near_target Pipeline.default_config f
  = Qle_bool
      (Qabs (inject_Z (Pipeline.uf_width f) / inject_Z (Pipeline.uf_height f)
             - 16 / 9))
      (Pipeline.epsilon Pipeline.default_config).
Proof.
  unfold Pipeline.near_target. apply Qle_bool_Qeq.
  apply Qabs_wd.
  assert (H : Pipeline.target_aspect Pipeline.default_config == 16 / 9)
    by reflexivity.
  rewrite H. reflexivity.
Qed.

Lemma exact_aspect (w h : Z) :
  (0 < h)%Z -> (w * 9 = h * 16)%Z -> inject_Z w / inject_Z h == 16 / 9.
Proof.
  intros Hh Hw.
  assert (Hpos : 0 < inject_Z h) by (rewrite <- (Zlt_Qlt 0); exact Hh).
  assert (Hq : inject_Z w * 9 == inject_Z h * 16).
  { change 9 with (inject_Z 9). change 16 with (inject_Z 16).
    rewrite <- !inject_Z_mult, Hw. reflexivity. }
  apply Qmult_inj_r with (z := inject_Z h * 9); [lra|].
  transitivity (inject_Z w * 9); [field; lra|].
  rewrite Hq. field.
Qed.

(** C5: the output canvas the pipeline is configured with is 3840 by
    2160, the canvas the dialog of the client names, and the target
    aspect its crop decision uses, 3840 / 2160, is the rational 16 / 9
    (reduced form 16 # 9, 3840 * 9 = 2160 * 16): the aspect check of a
    file is the comparison of |width / height - 16 / 9| with the
    tolerance, so that an image of aspect exactly 16 : 9 is never sent
    for positioning; the targetAspect of the client is the same number,
    the 1.78 of the dialog text when rounded to two decimals. *)
Theorem target_aspect_16_9 :
  Pipeline.target_width Pipeline.default_config = 3840%Z
  /\ Pipeline.target_height Pipeline.default_config = 2160%Z
  /\ Pipeline.target_aspect Pipeline.default_config == 16 / 9
  /\ Qred (Pipeline.target_aspect Pipeline.default_config) = 16 # 9
  /\ (Pipeline.target_width Pipeline.default_config * 9
      = Pipeline.target_height Pipeline.default_config * 16)%Z
  /\ (forall f,
        Pipeline.near_target Pipeline.default_config f
        = Qle_bool
            (Qabs (inject_Z (Pipeline.uf_width f)
                   / inject_Z (Pipeline.uf_height f) - 16 / 9))
            (Pipeline.epsilon Pipeline.default_config))
  /\ (forall f io_ok,
        (0 < Pipeline.uf_height f)%Z ->
        (Pipeline.uf_width f * 9 = Pipeline.uf_height f * 16)%Z ->
        Pipeline.aspect_check Pipeline.default_config io_ok f
        = Pipeline.transform io_ok)
  /\ canvasWidth = Pipeline.target_width Pipeline.default_config
  /\ canvasHeight = Pipeline.target_height Pipeline.default_config
  /\ targetAspect == Pipeline.target_aspect Pipeline.default_config
  /\ Qfloor (targetAspect * 100 + 1 / 2) = 178%Z.
Proof.
  split; [reflexivity|]. split; [reflexivity|]. split; [reflexivity|].
  split; [reflexivity|]. split; [reflexivity|].
  split; [exact near_target_16_9|]. split; [|repeat split].
  intros f io_ok Hh Hw. unfold Pipeline.aspect_check.
  rewrite near_target_16_9.
  assert (H : Qle_bool
                (Qabs (inject_Z (Pipeline.uf_width f)
                       / inject_Z (Pipeline.uf_height f) - 16 / 9))
                (Pipeline.epsilon Pipeline.default_config) = true).
  { apply Qle_bool_iff.
    rewrite (exact_aspect _ _ Hh Hw).
    vm_compute. discriminate. }
  rewrite H. reflexivity.
Qed.

End PreviewFacts.

(* ================================================================== *)
(** * Properties of the duplicate dialog *)

Section DuplicateFacts.

Variable result : FileEntry.
Variable jobId : string.
Variable server : Duplicate.Request -> Async.outcome.

Lemma requests_app {Req Eff : Type} (t u : list (Async.action Req Eff)) :
  Async.requests (t ++ u) = (Async.requests t ++ Async.requests u)%list.
Proof. unfold Async.requests. apply flat_map_app. Qed.

Lemma handleAction_requests (action : string) :
  Async.requests (Async.run server (Duplicate.handleAction result jobId action))
  = [Duplicate.request result jobId action].
Proof.
  unfold Duplicate.handleAction. simpl.
  destruct (server _) as [m|data]; [reflexivity|].
  destruct (JS.get data "error") as [err|]; [|reflexivity].
  destruct (negb (JS.truthy err)); reflexivity.
Qed.

Lemma bundled_handleAction_requests (action : string) :
  Async.requests
    (Async.run server (DuplicateBundled.handleAction result jobId action))
  = [Duplicate.request result jobId action].
Proof.
  unfold DuplicateBundled.handleAction. simpl.
  destruct (server _) as [m|data]; [reflexivity|].
  destruct (JS.get data "error") as [err|]; [|reflexivity].
  destruct (negb (JS.truthy err)); reflexivity.
Qed.

(** A click sends a request exactly when it lands on one of the three
    buttons, and then the request of that button's action. *)
Lemma onClick_requests (c : Duplicate.Click) :
  Async.requests (Async.run server (Duplicate.onClick result jobId c))
  = match Duplicate.button_action c with
    | Some a => [Duplicate.request result jobId a]
    | None => []
    end.
Proof.
  destruct c; simpl; try reflexivity; apply handleAction_requests.
Qed.

Lemma bundled_onClick_requests (s : DuplicateBundled.State)
  (c : Duplicate.Click) :
  Async.requests
    (Async.run server (snd (DuplicateBundled.onClick result jobId s c)))
  = match Duplicate.button_action c with
    | Some a =>
        if DuplicateBundled.disabled s then []
        else [Duplicate.request result jobId a]
    | None => []
    end.
Proof.
  destruct c; simpl; try reflexivity;
    destruct (DuplicateBundled.disabled s); simpl; try reflexivity;
    apply bundled_handleAction_requests.
Qed.

Lemma button_action_allowed (c : Duplicate.Click) (a : string) :
  Duplicate.button_action c = Some a -> In a Duplicate.actions.
Proof.
  unfold Duplicate.actions.
  destruct c; simpl; intros H; inversion H; subst; auto.
Qed.

Lemma request_wellformed (a : string) :
  In a Duplicate.actions ->
  Duplicate.wellformed result jobId (Duplicate.request result jobId a).
Proof. intros H. repeat split. exact H. Qed.

Lemma session_wellformed (clicks : list Duplicate.Click)
  (r : Duplicate.Request) :
  In r (Async.requests (Duplicate.session result jobId server clicks)) ->
  Duplicate.wellformed result jobId r.
Proof.
  unfold Duplicate.session.
  induction clicks as [|c clicks IH]; simpl; [tauto|].
  rewrite requests_app, in_app_iff, onClick_requests.
  intros [H|H]; [|exact (IH H)].
  destruct (Duplicate.button_action c) as [a|] eqn:E; [|destruct H].
  destruct H as [<-|[]].
  apply request_wellformed, (button_action_allowed c), E.
Qed.

Lemma bundled_session_wellformed (clicks : list Duplicate.Click)
  (s : DuplicateBundled.State) (r : Duplicate.Request) :
  In r (Async.requests
          (DuplicateBundled.session result jobId server s clicks)) ->
  Duplicate.wellformed result jobId r.
Proof.
  revert s.
  induction clicks as [|c clicks IH]; intros s; simpl; [tauto|].
  pose proof (bundled_onClick_requests s c) as Hc.
  destruct (DuplicateBundled.onClick result jobId s c) as [s' p].
  simpl in Hc.
  rewrite requests_app, in_app_iff, Hc.
  intros [H|H]; [|exact (IH s' H)].
  destruct (Duplicate.button_action c) as [a|] eqn:E; [|destruct H].
  destruct (DuplicateBundled.disabled s); [destruct H|].
  destruct H as [<-|[]].
  apply request_wellformed, (button_action_allowed c), E.
Qed.

(** C2: every duplicate-action request of the dialog, in the standalone
    and in the bundled component and after any clicks, goes to the
    duplicate-action endpoint of the job, carries the filename of the
    paused file and an action among skip, overwrite and import_anyway;
    and each of the three actions is sent by one of the buttons. *)
Theorem duplicate_requests (clicks : list Duplicate.Click)
  (r : Duplicate.Request) :
  In r (Async.requests (Duplicate.session result jobId server clicks))
  \/ In r (Async.requests
             (DuplicateBundled.session result jobId server None clicks)) ->
  (Duplicate.req_url r = upload_url jobId "duplicate-action"
   /\ Duplicate.body_filename (Duplicate.req_body r) = filename result
   /\ In (Duplicate.body_action (Duplicate.req_body r))
        ["skip"; "overwrite"; "import_anyway"])
  /\ (forall a, In a ["skip"; "overwrite"; "import_anyway"] ->
        exists c,
          Async.requests (Duplicate.session result jobId server [c])
          = [Duplicate.request result jobId a]
          /\ Async.requests
               (DuplicateBundled.session result jobId server None [c])
             = [Duplicate.request result jobId a]).
Proof.
  intros H. split.
  - destruct H as [H|H].
    + exact (session_wellformed clicks r H).
    + exact (bundled_session_wellformed clicks None r H).
  - intros a Ha.
    assert (Hc : exists c, Duplicate.button_action c = Some a).
    { simpl in Ha. destruct Ha as [<-|[<-|[<-|[]]]].
      - exists Duplicate.SkipButton. reflexivity.
      - exists Duplicate.OverwriteButton. reflexivity.
      - exists Duplicate.ImportButton. reflexivity. }
    destruct Hc as [c Hc]. exists c. split.
    + unfold Duplicate.session. simpl. rewrite app_nil_r.
      rewrite onClick_requests, Hc. reflexivity.
    + simpl.
      pose proof (bundled_onClick_requests None c) as Hb.
      destruct (DuplicateBundled.onClick result jobId None c) as [s' p].
      simpl in Hb. rewrite app_nil_r, Hb, Hc. reflexivity.
Qed.




End DuplicateFacts.

(* ================================================================== *)
(** * Properties of the progress modal *)

Section PollingFacts.
Import UploadProgress.

Variable jobId : string.

Lemma apply_timer_cleared (es : list Effect) (s : State) :
  timer s = None -> timer (fold_left apply es s) = None.
Proof.
  revert s. induction es as [|e es IH]; intros s Hs; simpl; [exact Hs|].
  apply IH. destruct e; simpl; try exact Hs; reflexivity.
Qed.

Lemma apply_clears (es : list Effect) (s : State) :
  In ClearInterval es -> timer (fold_left apply es s) = None.
Proof.
  revert s. induction es as [|e es IH]; intros s; simpl; [tauto|].
  intros [->|H].
  - apply apply_timer_cleared. reflexivity.
  - apply IH, H.
Qed.

(** Once the interval is cleared it stays cleared, and no step polls. *)
Lemma step_cleared (s : State) (ev : Event) :
  timer s = None ->
  timer (fst (step jobId s ev)) = None /\ polls (snd (step jobId s ev)) = [].
Proof.
  intros Hs. destruct ev as [|o|]; simpl.
  - rewrite Hs. simpl. auto.
  - destruct (inflight s) as [|n]; simpl; [auto|]. split.
    + apply apply_timer_cleared. exact Hs.
    + unfold callbacks, polls.
      induction (settled o) as [|e es IH]; simpl; [reflexivity|].
      rewrite flat_map_app, IH, app_nil_r. destruct e; reflexivity.
  - auto.
Qed.

Lemma run_cleared (evs : list Event) (s : State) :
  timer s = None -> polls (snd (run jobId s evs)) = [].
Proof.
  revert s. induction evs as [|ev evs IH]; intros s Hs; simpl; [reflexivity|].
  destruct (step_cleared s ev Hs) as [H1 H2].
  destruct (step jobId s ev) as [s1 out1]. simpl in H1, H2.
  specialize (IH s1 H1).
  destruct (run jobId s1 evs) as [s2 out2]. simpl in IH |- *.
  unfold polls in *. rewrite flat_map_app, H2, IH. reflexivity.
Qed.

Lemma terminal_cases (data : JS.value) :
  terminal data = true ->
  exists st, JS.get data "status" = Some st
             /\ (JS.is_str st "error" = true
                 \/ (JS.is_str st "error" = false
                     /\ JS.is_str st "complete" = true)).
Proof.
  unfold terminal. destruct (JS.get data "status") as [st|]; [|discriminate].
  intros H. exists st. split; [reflexivity|].
  destruct (JS.is_str st "error"); [left; reflexivity|right; auto].
Qed.

(** A poll that receives a terminal snapshot clears the interval and
    calls the callback of that status. *)
Lemma settle_terminal (s : State) (data : JS.value) :
  inflight s <> O -> terminal data = true ->
  timer (fst (step jobId s (Settle (Async.Resolved data)))) = None
  /\ (snd (step jobId s (Settle (Async.Resolved data)))
      = [Called (OnError (JS.get_opt data "errors"))]
      \/ snd (step jobId s (Settle (Async.Resolved data)))
         = [Called (OnComplete data)]).
Proof.
  intros Hn Ht. simpl. destruct (inflight s) as [|n]; [congruence|].
  destruct (terminal_cases data Ht) as (st & Hg & [He|[He Hc]]);
    simpl; rewrite Hg; simpl; rewrite He; try rewrite Hc; simpl; auto.
Qed.

(** A poll that receives any other snapshot leaves the interval armed
    and calls nothing. *)
Lemma settle_nonterminal (s : State) (data : JS.value) :
  inflight s <> O -> JS.get data "status" <> None -> terminal data = false ->
  timer (fst (step jobId s (Settle (Async.Resolved data)))) = timer s
  /\ snd (step jobId s (Settle (Async.Resolved data))) = [].
Proof.
  intros Hn Hg Ht. simpl. destruct (inflight s) as [|n]; [congruence|].
  unfold terminal in Ht.
  destruct (JS.get data "status") as [st|] eqn:E; [|congruence].
  apply orb_false_iff in Ht. destruct Ht as [He Hc].
  simpl. rewrite He, Hc. simpl. auto.
Qed.

Lemma is_str_complete_not_error (st : JS.value) :
  JS.is_str st "complete" = true -> JS.is_str st "error" = false.
Proof.
  destruct st; simpl; try discriminate.
  intros H. apply String.eqb_eq in H. subst. reflexivity.
Qed.

(** Which callback a terminal snapshot calls: [onError] with the errors
    for the status 'error', [onComplete] with the snapshot for the
    status 'complete'. *)
Lemma settle_callback (s : State) (data : JS.value) :
  inflight s <> O ->
  (JS.is_str (JS.get_opt data "status") "error" = true ->
   snd (step jobId s (Settle (Async.Resolved data)))
   = [Called (OnError (JS.get_opt data "errors"))])
  /\ (JS.is_str (JS.get_opt data "status") "complete" = true ->
      snd (step jobId s (Settle (Async.Resolved data)))
      = [Called (OnComplete data)]).
Proof.
  intros Hn. simpl. destruct (inflight s) as [|n]; [congruence|].
  change (JS.get_opt data "status")
    with (match JS.get data "status" with
          | Some w => w
          | None => JS.Undefined
          end).
  simpl.
  destruct (JS.get data "status") as [st|]; [|split; discriminate].
  split; intros H.
  - rewrite H. reflexivity.
  - rewrite (is_str_complete_not_error st H), H. reflexivity.
Qed.

(** C4, as the code has it: for a non-empty job id the modal arms a
    300 ms interval; every tick of the armed interval sends one GET to
    the status endpoint of the job; a snapshot whose status is neither
    'complete' nor 'error' leaves the interval armed and calls nothing;
    a snapshot whose status is 'complete' or 'error' clears the interval
    and calls its callback, onError (with the errors) for 'error' and
    onComplete (with the snapshot) for 'complete', and no status request
    is sent afterwards, whatever happens; a poll that throws (its fetch is
    rejected, or the body has no fields to read) also clears the
    interval, and calls neither callback. *)
Theorem polling_protocol :
  JS.truthy (JS.Str jobId) = true ->
  timer (mount jobId) = Some 300%Z
  /\ (forall s, timer s <> None ->
        snd (step jobId s Tick) = [Get (upload_url jobId "status")]
        /\ timer (fst (step jobId s Tick)) = timer s)
  /\ (forall s data,
        inflight s <> O -> JS.get data "status" <> None ->
        terminal data = false ->
        timer (fst (step jobId s (Settle (Async.Resolved data)))) = timer s
        /\ snd (step jobId s (Settle (Async.Resolved data))) = [])
  /\ (forall s data,
        inflight s <> O -> terminal data = true ->
        timer (fst (step jobId s (Settle (Async.Resolved data)))) = None
        /\ (JS.is_str (JS.get_opt data "status") "error" = true ->
            snd (step jobId s (Settle (Async.Resolved data)))
            = [Called (OnError (JS.get_opt data "errors"))])
        /\ (JS.is_str (JS.get_opt data "status") "complete" = true ->
            snd (step jobId s (Settle (Async.Resolved data)))
            = [Called (OnComplete data)])
        /\ (JS.is_str (JS.get_opt data "status") "error" = true
            \/ JS.is_str (JS.get_opt data "status") "complete" = true)
        /\ forall evs,
             polls (snd (run jobId
                           (fst (step jobId s (Settle (Async.Resolved data))))
                           evs)) = [])
  /\ (forall s message,
        inflight s <> O ->
        timer (fst (step jobId s (Settle (Async.Rejected message)))) = None
        /\ snd (step jobId s (Settle (Async.Rejected message))) = [])
  /\ (forall s data,
        inflight s <> O -> JS.get data "status" = None ->
        timer (fst (step jobId s (Settle (Async.Resolved data)))) = None
        /\ snd (step jobId s (Settle (Async.Resolved data))) = []).
Proof.
  intros Hj. split; [|split; [|split; [|split; [|split]]]].
  - unfold mount. rewrite Hj. reflexivity.
  - intros s Hs. simpl. destruct (timer s); [auto|congruence].
  - intros s data. apply settle_nonterminal.
  - intros s data Hn Ht.
    destruct (settle_terminal s data Hn Ht) as [H1 _].
    destruct (settle_callback s data Hn) as [He Hc].
    split; [exact H1|]. split; [exact He|]. split; [exact Hc|]. split.
    + destruct (terminal_cases data Ht) as (st & Hg & [H|[_ H]]);
        unfold JS.get_opt; rewrite Hg; auto.
    + intros evs. apply run_cleared, H1.
  - intros s message Hn. simpl.
    destruct (inflight s); [congruence|]. simpl. auto.
  - intros s data Hn Hg. simpl.
    destruct (inflight s); [congruence|]. simpl. rewrite Hg. simpl. auto.
Qed.

(** The component reads nothing of a snapshot but the six fields. *)
Lemma consume_frame (f1 f2 : list (string * JS.value)) :
  (forall k, In k consumed -> JS.lookup k f1 = JS.lookup k f2) ->
  consume (JS.Obj f1) = consume (JS.Obj f2).
Proof.
  intros H.
  assert (Hs : JS.lookup "status" f1 = JS.lookup "status" f2)
    by (apply H; simpl; auto).
  assert (Hp : JS.lookup "progress" f1 = JS.lookup "progress" f2)
    by (apply H; simpl; auto).
  assert (Hr : JS.lookup "results" f1 = JS.lookup "results" f2)
    by (apply H; simpl; auto 10).
  assert (Ht : JS.lookup "total_files" f1 = JS.lookup "total_files" f2)
    by (apply H; simpl; auto 10).
  assert (Hc : JS.lookup "current_step" f1 = JS.lookup "current_step" f2)
    by (apply H; simpl; auto 10).
  assert (He : JS.lookup "errors" f1 = JS.lookup "errors" f2)
    by (apply H; simpl; auto 10).
  unfold consume, settled, JS.get_opt, JS.get.
  rewrite Hs, He.
  destruct (JS.is_str (JS.lookup "status" f2) "error");
    [|destruct (JS.is_str (JS.lookup "status" f2) "complete")];
    unfold render; simpl; unfold JS.get_opt, JS.get;
    rewrite Hp, Hr, Ht, Hc; reflexivity.
Qed.

End PollingFacts.

(* ================================================================== *)
(** * Properties of the status snapshot *)

Section SnapshotFacts.
Import UploadProgress.

(** Each of the six fields is read: a snapshot that differs from another
    in that field alone can be told apart by what the modal does. *)
Lemma consume_reads (k : string) :
  In k consumed ->
  exists f v, JS.lookup k f = JS.Undefined
              /\ consume (JS.Obj ((k, v) :: f)) <> consume (JS.Obj f).
Proof.
  simpl. intros [<-|[<-|[<-|[<-|[<-|[<-|[]]]]]]].
  - exists [], (JS.Str "complete"). split; [reflexivity|]. discriminate.
  - exists [], (JS.Num 50). split; [reflexivity|]. discriminate.
  - exists [], (JS.Arr [JS.Null]). split; [reflexivity|]. discriminate.
  - exists [], (JS.Num 3). split; [reflexivity|]. discriminate.
  - exists [], (JS.Str "Queued"). split; [reflexivity|]. discriminate.
  - exists [("status", JS.Str "error")], (JS.Arr [JS.Str "InvalidImage"]).
    split; [reflexivity|]. discriminate.
Qed.

(** With at most [total_files] files processed, of one or more, the
    progress is a percentage. *)
Lemma progress_range (j : Pipeline.UploadJob) :
  (0 < Pipeline.total_files j)%nat ->
  (Pipeline.processed_count j <= Pipeline.total_files j)%nat ->
  (0 <= Pipeline.progress j <= 100)%Z.
Proof.
  intros Ht Hp. unfold Pipeline.progress.
  set (p := inject_Z (Z.of_nat (Pipeline.processed_count j))).
  set (n := inject_Z (Z.of_nat (Pipeline.total_files j))).
  assert (Hn : 0 < n).
  { unfold n. rewrite <- (Zlt_Qlt 0). lia. }
  assert (Hp0 : 0 <= p).
  { unfold p. rewrite <- (Zle_Qle 0). lia. }
  assert (Hpn : p <= n).
  { unfold p, n. rewrite <- Zle_Qle. lia. }
  assert (H0 : 0 <= p / n) by (apply Qle_shift_div_l; [exact Hn | lra]).
  assert (H1 : p / n <= 1) by (apply Qle_shift_div_r; [exact Hn | lra]).
  set (q := p / n) in *.
  split.
  - exact (Qfloor_resp_le 0 (q * 100) ltac:(lra)).
  - exact (Qfloor_resp_le (q * 100) 100 ltac:(lra)).
Qed.

(** C6: the snapshot of a job is the object of the six fields status,
    progress, results, total_files, current_step and errors, its
    progress being the floor of processed_count / total_files * 100;
    and these six are the fields the polling modal consumes: it reacts
    alike to two bodies that agree on them, and it reads each of them. *)
Theorem snapshot_fields (j : Pipeline.UploadJob) :
  Pipeline.keys (Pipeline.snapshot j)
  = ["status"; "progress"; "results"; "total_files"; "current_step";
     "errors"]
  /\ JS.get (Pipeline.snapshot j) "progress"
     = Some (JS.Num (inject_Z (Pipeline.progress j)))
  /\ (inject_Z (Pipeline.progress j)
      <= inject_Z (Z.of_nat (Pipeline.processed_count j))
         / inject_Z (Z.of_nat (Pipeline.total_files j)) * 100
      /\ inject_Z (Z.of_nat (Pipeline.processed_count j))
         / inject_Z (Z.of_nat (Pipeline.total_files j)) * 100
         < inject_Z (Pipeline.progress j + 1))
  /\ consumed = Pipeline.keys (Pipeline.snapshot j)
  /\ (forall f1 f2,
        (forall k, In k (Pipeline.keys (Pipeline.snapshot j)) ->
                   JS.lookup k f1 = JS.lookup k f2) ->
        consume (JS.Obj f1) = consume (JS.Obj f2))
  /\ (forall k, In k (Pipeline.keys (Pipeline.snapshot j)) ->
        exists f v, JS.lookup k f = JS.Undefined
                    /\ consume (JS.Obj ((k, v) :: f)) <> consume (JS.Obj f)).
Proof.
  split; [reflexivity|]. split; [reflexivity|]. split.
  - unfold Pipeline.progress. split.
    + apply Qfloor_le.
    + apply Qlt_floor.
  - split; [reflexivity|]. split.
    + intros f1 f2 H. apply consume_frame. exact H.
    + intros k Hk. apply consume_reads. exact Hk.
Qed.

End SnapshotFacts.

(* ================================================================== *)
(** * Properties of the job pipeline *)

Section PipelineFacts.
Import Pipeline.

Variable cfg : Config.

Lemma amend_last_names (st : FileStatus) (msg : option string)
  (rs : list FileResult) :
  map fr_filename (amend_last st msg rs) = map fr_filename rs.
Proof.
  induction rs as [|r rs IH]; [reflexivity|].
  destruct rs as [|r' rs]; [reflexivity|].
  change (amend_last st msg (r :: r' :: rs))
    with (r :: amend_last st msg (r' :: rs)).
  rewrite (map_cons fr_filename r (amend_last st msg (r' :: rs))), IH.
  reflexivity.
Qed.

Lemma amend_appends : appends [] amend.
Proof.
  intros st msg j. simpl. rewrite amend_last_names, app_nil_r. auto.
Qed.

Lemma push_appends (f : UploadFile) (dup : option LibraryImage) :
  appends [uf_name f] (push f dup).
Proof.
  intros st msg j. simpl. rewrite map_app. auto.
Qed.

(** Recording an outcome keeps the status, the total and the queue, and
    changes the names as the job update does. *)
Lemma settle_shape (o : Outcome) (f : UploadFile)
  (target : option LibraryImage) (extra : list string)
  (write : FileStatus -> option string -> UploadJob -> UploadJob)
  (s : Server) :
  appends extra write ->
  status (job (settle o f target write s)) = status (job s)
  /\ total_files (job (settle o f target write s)) = total_files (job s)
  /\ names (settle o f target write s) = (names s ++ extra)%list
  /\ queue (task (settle o f target write s)) = queue (task s).
Proof.
  intros H. unfold names.
  destruct o as [| |m]; simpl.
  - destruct (H accepted None (job s)) as (H1 & H2 & H3). auto.
  - destruct (H crop_pending None (job s)) as (H1 & H2 & H3). auto.
  - destruct (H errored (Some m) (job s)) as (H1 & H2 & H3). auto.
Qed.

Lemma start_file_shape (io_ok : bool) (f : UploadFile) (s : Server) :
  status (job (start_file cfg io_ok f s)) = status (job s)
  /\ total_files (job (start_file cfg io_ok f s)) = total_files (job s)
  /\ names (start_file cfg io_ok f s) = (names s ++ [uf_name f])%list
  /\ queue (task (start_file cfg io_ok f s)) = queue (task s).
Proof.
  unfold start_file.
  destruct (negb (uf_readable f)).
  - apply (settle_shape _ f None [uf_name f] (push f None)
             {| library := library s;
                job := with_step (step_message f (job s)) (job s);
                task := task s |}).
    apply push_appends.
  - destruct (dup_match (library s) (uf_fingerprint f) (uf_name f)) as [img|].
    + unfold names. simpl. rewrite map_app. auto.
    + apply (settle_shape _ f None [uf_name f] (push f None)
               {| library := library s;
                  job := with_step (step_message f (job s)) (job s);
                  task := task s |}).
      apply push_appends.
Qed.

Lemma advance_in_order (files : list UploadFile) (io_ok : bool)
  (s : Server) :
  in_order files s -> in_order files (advance cfg io_ok s).
Proof.
  intros Hs. pose proof Hs as (Hn & Ht & Hq). unfold advance.
  destruct (status (job s)) eqn:Es.
  - repeat split; assumption.
  - destruct (paused (task s)) as [p|]; [exact Hs|].
    destruct (queue (task s)) as [|f rest] eqn:Eq.
    + unfold in_order, names in *. simpl. rewrite Eq. auto.
    + destruct (start_file_shape io_ok f
                    {| library := library s; job := job s;
                       task := {| queue := rest; paused := None |} |})
          as (H1 & H2 & H3 & H4).
      repeat split.
      * rewrite H3, H4. unfold names in *. simpl in *.
        rewrite <- app_assoc. exact Hn.
      * rewrite H2. exact Ht.
      * rewrite H1. simpl. rewrite Es. discriminate.
  - exact Hs.
  - exact Hs.
Qed.

Lemma settle_amend_in_order (files : list UploadFile) (o : Outcome)
  (f : UploadFile) (target : option LibraryImage) (s : Server) :
  in_order files s -> in_order files (settle o f target amend s).
Proof.
  intros (Hn & Ht & Hq).
  destruct (settle_shape o f target [] amend s amend_appends)
    as (H1 & H2 & H3 & H4).
  repeat split.
  - rewrite H3, H4, app_nil_r. exact Hn.
  - rewrite H2. exact Ht.
  - rewrite H1, H4. exact Hq.
Qed.

Lemma step_in_order (files : list UploadFile) (s : Server) (ev : Event) :
  in_order files s -> in_order files (step cfg s ev).
Proof.
  intros Hs. unfold step, call.
  destruct ev as [io_ok|name action io_ok|name box io_ok].
  - apply advance_in_order, Hs.
  - unfold resolveDuplicate.
    destruct (negb (known name s)); [exact Hs|].
    destruct (awaiting name duplicate_pending s) as [[f img]|]; [|exact Hs].
    destruct action.
    + destruct Hs as (Hn & Ht & Hq). repeat split; try assumption.
      unfold names in *. simpl. rewrite amend_last_names. exact Hn.
    + apply settle_amend_in_order, Hs.
    + apply settle_amend_in_order, Hs.
  - unfold resolvePosition.
    destruct (negb (known name s)); [exact Hs|].
    destruct (awaiting name crop_pending s) as [[f target]|]; [|exact Hs].
    destruct (valid_box box); [|exact Hs].
    apply settle_amend_in_order, Hs.
Qed.

Lemma submit_in_order (lib : list LibraryImage) (files : list UploadFile)
  (s : Server) :
  submit lib files = inr s -> in_order files s.
Proof.
  unfold submit. destruct files as [|f files]; [discriminate|].
  intros H. inversion H; subst. repeat split. simpl. discriminate.
Qed.

Lemma run_in_order (files : list UploadFile) (evs : list Event)
  (s : Server) :
  in_order files s -> in_order files (run cfg evs s).
Proof.
  unfold run. revert s.
  induction evs as [|ev evs IH]; intros s Hs; simpl; [exact Hs|].
  apply IH, step_in_order, Hs.
Qed.

(** C7: for every batch submitted and after any calls, once the status
    of the job is complete or error the results are as many as
    total_files, and their filenames are those of the batch in the order
    of submission. *)
Theorem terminal_results (lib : list LibraryImage)
  (files : list UploadFile) (s0 : Server) (evs : list Event) :
  submit lib files = inr s0 ->
  terminal (status (job (run cfg evs s0))) = true ->
  List.length (results (job (run cfg evs s0)))
  = total_files (job (run cfg evs s0))
  /\ map fr_filename (results (job (run cfg evs s0))) = map uf_name files.
Proof.
  intros Hsub Hterm.
  destruct (run_in_order files evs s0 (submit_in_order lib files s0 Hsub))
    as (Hn & Ht & Hq).
  rewrite (Hq Hterm) in Hn. simpl in Hn. rewrite app_nil_r in Hn.
  unfold names in Hn. split; [|exact Hn].
  rewrite Ht, <- (length_map fr_filename), Hn. apply length_map.
Qed.

End PipelineFacts.

(* ================================================================== *)
(** * The scenario, run *)

(** [crop_request_valid] on the drag of the scenario. *)
Lemma crop_request_valid_scenario :
  0 < CropPositioning.previewWidth (aspect_info Scenario.d_entry)
  /\ 0 < CropPositioning.previewHeight (aspect_info Scenario.d_entry)
  /\ CropPositioning.submitted Scenario.d_entry Scenario.jobId Scenario.drag
       (fun _ => Async.Resolved Scenario.ack) <> []
  /\ Forall
       (fun r => CropPositioning.valid
                   (CropPositioning.pb_crop_box (CropPositioning.req_body r)))
       (CropPositioning.submitted Scenario.d_entry Scenario.jobId
          Scenario.drag (fun _ => Async.Resolved Scenario.ack)).
Proof.
  split; [reflexivity|]. split; [reflexivity|].
  apply (crop_request_valid Scenario.d_entry Scenario.jobId Scenario.drag
           (fun _ => Async.Resolved Scenario.ack)); reflexivity.
Defined.

(** [preview_fits] on the 1600 by 900 image of the scenario. *)
Lemma preview_fits_scenario :
  0 < ai_width (aspect_info Scenario.b_entry)
  /\ 0 < ai_height (aspect_info Scenario.b_entry)
  /\ CropPositioning.previewWidth (aspect_info Scenario.b_entry) <= 400
  /\ CropPositioning.previewHeight (aspect_info Scenario.b_entry) <= 400
  /\ (CropPositioning.previewWidth (aspect_info Scenario.b_entry) = 400
      \/ CropPositioning.previewHeight (aspect_info Scenario.b_entry) = 400)
  /\ CropPositioning.previewWidth (aspect_info Scenario.b_entry)
     / CropPositioning.previewHeight (aspect_info Scenario.b_entry)
     == ai_width (aspect_info Scenario.b_entry)
        / ai_height (aspect_info Scenario.b_entry).
Proof.
  split; [reflexivity|]. split; [reflexivity|].
  apply (preview_fits (aspect_info Scenario.b_entry)); reflexivity.
Defined.

(** [duplicate_requests] on a click on "Overwrite Existing". *)
Lemma duplicate_requests_scenario :
  (In (Duplicate.request Scenario.b_entry Scenario.jobId "overwrite")
      (Async.requests
         (Duplicate.session Scenario.b_entry Scenario.jobId
            (fun _ => Async.Resolved Scenario.ack)
            [Duplicate.Dialog; Duplicate.OverwriteButton]))
   \/ In (Duplicate.request Scenario.b_entry Scenario.jobId "overwrite")
        (Async.requests
           (DuplicateBundled.session Scenario.b_entry Scenario.jobId
              (fun _ => Async.Resolved Scenario.ack) None
              [Duplicate.Dialog; Duplicate.OverwriteButton])))
  /\ Duplicate.body_filename
       (Duplicate.req_body
          (Duplicate.request Scenario.b_entry Scenario.jobId "overwrite"))
     = "b.jpg"
  /\ In (Duplicate.body_action
           (Duplicate.req_body
              (Duplicate.request Scenario.b_entry Scenario.jobId "overwrite")))
       ["skip"; "overwrite"; "import_anyway"].
Proof.
  assert (H : In (Duplicate.request Scenario.b_entry Scenario.jobId
                    "overwrite")
                (Async.requests
                   (Duplicate.session Scenario.b_entry Scenario.jobId
                      (fun _ => Async.Resolved Scenario.ack)
                      [Duplicate.Dialog; Duplicate.OverwriteButton]))).
  { simpl. left. reflexivity. }
  split; [left; exact H|].
  destruct (duplicate_requests Scenario.b_entry Scenario.jobId
              (fun _ => Async.Resolved Scenario.ack)
              [Duplicate.Dialog; Duplicate.OverwriteButton]
              (Duplicate.request Scenario.b_entry Scenario.jobId "overwrite")
              (or_introl H)) as [(_ & Hf & Ha) _].
  split; [exact Hf | exact Ha].
Defined.


(** [polling_protocol] on the job of the scenario. *)
Lemma polling_protocol_scenario :
  let s := fst (UploadProgress.step Scenario.jobId
                  (UploadProgress.mount Scenario.jobId) UploadProgress.Tick) in
  JS.truthy (JS.Str Scenario.jobId) = true
  /\ UploadProgress.timer (UploadProgress.mount Scenario.jobId)
     = Some 300%Z
  /\ UploadProgress.inflight s <> O
  /\ UploadProgress.terminal Scenario.complete_snapshot = true
  /\ UploadProgress.timer
       (fst (UploadProgress.step Scenario.jobId s
               (UploadProgress.Settle
                  (Async.Resolved Scenario.complete_snapshot)))) = None
  /\ snd (UploadProgress.step Scenario.jobId s
            (UploadProgress.Settle
               (Async.Resolved Scenario.complete_snapshot)))
     = [UploadProgress.Called
          (UploadProgress.OnComplete Scenario.complete_snapshot)]
  /\ UploadProgress.terminal Scenario.processing_snapshot = false
  /\ UploadProgress.timer
       (fst (UploadProgress.step Scenario.jobId s
               (UploadProgress.Settle
                  (Async.Resolved Scenario.processing_snapshot))))
     = Some 300%Z.
Proof.
  intros s.
  assert (Hn : UploadProgress.inflight s <> O) by discriminate.
  destruct (polling_protocol Scenario.jobId eq_refl)
    as (Hm & _ & Hkeep & Hstop & _).
  destruct (Hstop s Scenario.complete_snapshot Hn eq_refl)
    as (Hc & _ & Hcall & _).
  specialize (Hcall eq_refl).
  destruct (Hkeep s Scenario.processing_snapshot Hn) as (Hk & _);
    [discriminate | reflexivity |].
  repeat split; try assumption.
Defined.

(** The job reports 'processing', the next fetch is rejected: the
    interval is cleared although no terminal status was reported, the
    two later ticks send nothing, and no callback was called. *)
Lemma polling_stops_on_rejected_fetch :
  let '(s, out) :=
    UploadProgress.run Scenario.jobId (UploadProgress.mount Scenario.jobId)
      [UploadProgress.Tick;
       UploadProgress.Settle (Async.Resolved Scenario.processing_snapshot);
       UploadProgress.Tick;
       UploadProgress.Settle (Async.Rejected "Failed to fetch");
       UploadProgress.Tick;
       UploadProgress.Tick] in
  UploadProgress.status s = Scenario.processing_snapshot
  /\ UploadProgress.terminal (UploadProgress.status s) = false
  /\ UploadProgress.timer s = None
  /\ out = [UploadProgress.Get (upload_url Scenario.jobId "status");
            UploadProgress.Get (upload_url Scenario.jobId "status")].
Proof. repeat split. Qed.

(** [terminal_results] on the batch of the scenario: the job completes
    with three results, for a.jpg, b.jpg and d.png in that order. *)
Lemma terminal_results_scenario :
  Pipeline.submit [Scenario.c_jpg] Scenario.batch = inr Scenario.submitted
  /\ Pipeline.terminal
       (Pipeline.status
          (Pipeline.job
             (Pipeline.run Pipeline.default_config Scenario.calls
                Scenario.submitted))) = true
  /\ List.length
       (Pipeline.results
          (Pipeline.job
             (Pipeline.run Pipeline.default_config Scenario.calls
                Scenario.submitted)))
     = Pipeline.total_files
         (Pipeline.job
            (Pipeline.run Pipeline.default_config Scenario.calls
               Scenario.submitted))
  /\ map Pipeline.fr_filename
       (Pipeline.results
          (Pipeline.job
             (Pipeline.run Pipeline.default_config Scenario.calls
                Scenario.submitted)))
     = map Pipeline.uf_name Scenario.batch.
Proof.
  split; [reflexivity|]. split; [reflexivity|].
  apply (terminal_results Pipeline.default_config [Scenario.c_jpg]
           Scenario.batch Scenario.submitted Scenario.calls); reflexivity.
Defined.

(** The scenario ends as the specification says: complete, progress
    100, results accepted, skipped, accepted. *)
Lemma scenario_outcome :
  let j := Pipeline.job
             (Pipeline.run Pipeline.default_config Scenario.calls
                Scenario.submitted) in
  Pipeline.status j = Pipeline.complete
  /\ Pipeline.progress j = 100%Z
  /\ map Pipeline.fr_status (Pipeline.results j)
     = [Pipeline.accepted; Pipeline.skipped; Pipeline.accepted].
Proof. repeat split. Qed.

(* ================================================================== *)
(** * More on the crop positioning modal *)

Section DragFacts.
Import CropPositioning.

Variable a : AspectInfo.

(** X1: while no drag is in progress (before the first press on the
    mounted preview, or after a release), mouse moves and releases leave
    the crop box where it is, and so does a press while the preview is
    not mounted. *)
Theorem idle_moves_keep_box (evs : list Event) (s : State) :
  isDragging s = false ->
  Forall (fun ev => match ev with
                    | MouseDown _ (Some _) => False
                    | _ => True
                    end) evs ->
  cropBox (play a evs s) = cropBox s /\ isDragging (play a evs s) = false.
Proof.
  intros Hs Hevs. revert s Hs.
  induction Hevs as [|ev evs Hev _ IH]; intros s Hs; simpl; [auto|].
  assert (H : cropBox (step a s ev) = cropBox s
              /\ isDragging (step a s ev) = false).
  { destruct ev as [e [rect|]|e ref|]; simpl; try contradiction; auto.
    unfold handleMouseMove. rewrite Hs. auto. }
  destruct H as [Hc Hd]. destruct (IH _ Hd) as [H1 H2].
  rewrite H1. auto.
Qed.

Lemma clamp_inside (lo v : Q) :
  0 <= v -> v <= lo -> Qmax 0 (Qmin lo v) == v.
Proof.
  intros H0 H1.
  rewrite (Q.min_r lo v H1). apply Q.max_r. exact H0.
Qed.

Lemma clamp_below (lo v : Q) :
  0 <= lo -> v <= 0 -> Qmax 0 (Qmin lo v) == 0.
Proof.
  intros H0 H1. apply Q.max_l.
  apply Qle_trans with v; [apply Q.le_min_r | exact H1].
Qed.

Lemma clamp_above (lo v : Q) :
  0 <= lo -> lo <= v -> Qmax 0 (Qmin lo v) == lo.
Proof.
  intros H0 H1.
  rewrite (Q.min_l lo v H1). apply Q.max_r. exact H0.
Qed.

(** X2: on a valid crop box a drag update moves the box by the delta
    as long as the result stays inside the image, and otherwise stops it
    at the edge: at 0 on the left and top, at 1 - width on the right and
    1 - height at the bottom. *)
Theorem moveBox_clamps (dx dy : Q) (b : CropBox) :
  valid b ->
  ((0 <= x b + dx -> x b + dx <= 1 - width b ->
    x (moveBox dx dy b) == x b + dx)
   /\ (x b + dx <= 0 -> x (moveBox dx dy b) == 0)
   /\ (1 - width b <= x b + dx -> x (moveBox dx dy b) == 1 - width b))
  /\ ((0 <= y b + dy -> y b + dy <= 1 - height b ->
       y (moveBox dx dy b) == y b + dy)
      /\ (y b + dy <= 0 -> y (moveBox dx dy b) == 0)
      /\ (1 - height b <= y b + dy -> y (moveBox dx dy b) == 1 - height b)).
Proof.
  intros (Hx & Hy & Hxw & Hyh & Hw & Hh). simpl.
  assert (Hlx : 0 <= 1 - width b) by lra.
  assert (Hly : 0 <= 1 - height b) by lra.
  repeat split; intros.
  - apply clamp_inside; assumption.
  - apply clamp_below; assumption.
  - apply clamp_above; assumption.
  - apply clamp_inside; assumption.
  - apply clamp_below; assumption.
  - apply clamp_above; assumption.
Qed.

End DragFacts.

Section SubmitFacts.
Import CropPositioning.

Variable result : FileEntry.
Variable jobId : string.
Variable server : Request -> Async.outcome.

(** X4: confirming the position sets [isSubmitting] first and resets it
    last whatever the server does, and [onComplete] is called exactly
    when the fetch resolves to a body whose [error] is absent or
    falsy. *)
Theorem submit_effects (s : State) :
  let req := {| req_url := upload_url jobId "position";
                req_body := {| pb_filename := filename result;
                               pb_crop_box := cropBox s |} |} in
  let t := Async.effects (Async.run server (handleSubmit result jobId s)) in
  hd_error t = Some (SetIsSubmitting true)
  /\ last t OnComplete = SetIsSubmitting false
  /\ (In OnComplete t
      <-> exists data err,
            server req = Async.Resolved data
            /\ JS.get data "error" = Some err
            /\ JS.truthy err = false).
Proof.
  unfold handleSubmit. simpl.
  destruct (server _) as [m|data] eqn:Es.
  - simpl. repeat split; try reflexivity.
    + intros [H|[H|[H|[]]]]; discriminate.
    + intros (d & e & H & _). discriminate.
  - destruct (JS.get data "error") as [err|] eqn:Eg.
    + destruct (JS.truthy err) eqn:Et; simpl.
      * repeat split; try reflexivity.
        -- intros [H|[H|[]]]; discriminate.
        -- intros (d & e & H1 & H2 & H3).
           inversion H1; subst. rewrite Eg in H2. inversion H2; subst.
           congruence.
      * repeat split; try reflexivity.
        -- intros _. exists data, err. auto.
        -- intros _. right. left. reflexivity.
    + simpl. repeat split; try reflexivity.
      * intros [H|[H|[H|[]]]]; discriminate.
      * intros (d & e & H1 & H2 & _). inversion H1; subst. congruence.
Qed.

End SubmitFacts.

(* ================================================================== *)
(** * More on the duplicate dialog *)

Section DuplicateSessions.

Variable result : FileEntry.
Variable jobId : string.
Variable server : Duplicate.Request -> Async.outcome.

(** The actions of the buttons among some clicks, in order. *)
Lemma chosen_cons (c : Duplicate.Click) (clicks : list Duplicate.Click) :
  flat_map (fun c => match Duplicate.button_action c with
                     | Some a => [a]
                     | None => []
                     end) (c :: clicks)
  = (match Duplicate.button_action c with
     | Some a => [a]
     | None => []
     end
     ++ flat_map (fun c => match Duplicate.button_action c with
                           | Some a => [a]
                           | None => []
                           end) clicks)%list.
Proof. reflexivity. Qed.

(** X5: the standalone dialog posts once for every click on a button,
    in the order of the clicks: nothing keeps a second click, on the
    same or on another button, from sending a second request. *)
Theorem standalone_every_click (clicks : list Duplicate.Click) :
  Async.requests (Duplicate.session result jobId server clicks)
  = map (Duplicate.request result jobId)
      (flat_map (fun c => match Duplicate.button_action c with
                          | Some a => [a]
                          | None => []
                          end) clicks).
Proof.
  induction clicks as [|c clicks IH]; [reflexivity|].
  rewrite chosen_cons, map_app.
  change (Duplicate.session result jobId server (c :: clicks))
    with (Async.run server (Duplicate.onClick result jobId c)
          ++ Duplicate.session result jobId server clicks)%list.
  rewrite (@requests_app Duplicate.Request Duplicate.Effect), onClick_requests, IH.
  destruct (Duplicate.button_action c); reflexivity.
Qed.

Lemma bundled_disabled_silent (clicks : list Duplicate.Click)
  (s : DuplicateBundled.State) :
  DuplicateBundled.disabled s = true ->
  Async.requests (DuplicateBundled.session result jobId server s clicks) = [].
Proof.
  intros Hs. induction clicks as [|c clicks IH]; [reflexivity|].
  simpl.
  pose proof (bundled_onClick_requests result jobId server s c) as Hc.
  assert (Hst : fst (DuplicateBundled.onClick result jobId s c) = s).
  { destruct c; simpl; try reflexivity; rewrite Hs; reflexivity. }
  destruct (DuplicateBundled.onClick result jobId s c) as [s' p].
  simpl in Hc, Hst. subst s'.
  rewrite (@requests_app Duplicate.Request DuplicateBundled.Effect), Hc, IH, Hs.
  destruct (Duplicate.button_action c); reflexivity.
Qed.

(** X6: the bundled dialog posts at most once: the first click on a
    button sends its action and disables the three buttons, and no later
    click sends anything. *)
Theorem bundled_single_request (clicks : list Duplicate.Click) :
  Async.requests (DuplicateBundled.session result jobId server None clicks)
  = match flat_map (fun c => match Duplicate.button_action c with
                             | Some a => [a]
                             | None => []
                             end) clicks with
    | [] => []
    | a :: _ => [Duplicate.request result jobId a]
    end.
Proof.
  induction clicks as [|c clicks IH]; [reflexivity|].
  rewrite chosen_cons. simpl DuplicateBundled.session.
  pose proof (bundled_onClick_requests result jobId server None c) as Hc.
  destruct c;
    cbn [DuplicateBundled.onClick Duplicate.button_action
         DuplicateBundled.disabled snd app] in Hc |- *;
    rewrite (@requests_app Duplicate.Request DuplicateBundled.Effect), Hc;
    try exact IH;
    rewrite bundled_disabled_silent; reflexivity.
Qed.

End DuplicateSessions.

(* ================================================================== *)
(** * More on the progress modal *)

Section PollingExtras.
Import UploadProgress.

Variable jobId : string.

(** X7: without a job id (an empty one) the modal never sends a status
    request, and after the cleanup of the effect (unmount) no further
    request is sent, whatever ticks and responses follow. *)
Theorem no_polling_without_job (s : State) (evs : list Event) :
  polls (snd (run EmptyString (mount EmptyString) evs)) = []
  /\ polls (snd (run jobId s (Unmount :: evs))) = [].
Proof.
  split.
  - apply run_cleared. reflexivity.
  - pose proof (run_cleared jobId evs (apply s ClearInterval) eq_refl) as H.
    change (run jobId s (Unmount :: evs))
      with (let '(s2, out2) := run jobId (apply s ClearInterval) evs in
            (s2, ([] ++ out2)%list)).
    destruct (run jobId (apply s ClearInterval) evs) as [s2 out2].
    exact H.
Qed.

Lemma step_polls (s : State) (ev : Event) :
  polls (snd (step jobId s ev))
  = match ev, timer s with
    | Tick, Some _ => [upload_url jobId "status"]
    | _, _ => []
    end.
Proof.
  destruct ev as [|o|]; simpl.
  - destruct (timer s); reflexivity.
  - destruct (inflight s); [destruct (timer s); reflexivity|].
    simpl. unfold callbacks, polls.
    induction (settled o) as [|e es IH]; simpl.
    + destruct (timer s); reflexivity.
    + rewrite flat_map_app, IH.
      destruct e; destruct (timer s); reflexivity.
  - destruct (timer s); reflexivity.
Qed.

(** X8: every request of the modal is a GET of the status of its own
    job, and there is at most one per tick of the interval. *)
Theorem polls_only_status (s : State) (evs : list Event) :
  exists n,
    polls (snd (run jobId s evs)) = repeat (upload_url jobId "status") n
    /\ (n <= count_occ
               (fun e1 e2 : bool => Bool.bool_dec e1 e2)
               (map (fun ev => match ev with Tick => true | _ => false end)
                  evs)
               true)%nat.
Proof.
  revert s. induction evs as [|ev evs IH]; intros s.
  - exists O. split; [reflexivity|apply Nat.le_refl].
  - simpl run.
    pose proof (step_polls s ev) as Hp.
    destruct (step jobId s ev) as [s1 out1]. simpl in Hp.
    destruct (IH s1) as (n & Hn & Hle).
    destruct (run jobId s1 evs) as [s2 out2]. simpl in Hn |- *.
    unfold polls in *. rewrite flat_map_app, Hp, Hn.
    destruct ev as [|o|]; simpl.
    + destruct (timer s).
      * exists (S n). split; [reflexivity|]. apply le_n_S, Hle.
      * exists n. split; [reflexivity|]. apply Nat.le_trans with (1 := Hle).
        apply Nat.le_succ_diag_r.
    + exists n. split; [destruct (timer s); reflexivity|exact Hle].
    + exists n. split; [destruct (timer s); reflexivity|exact Hle].
Qed.

(** X9: a snapshot with status 'error' whose [errors] are an array
    that starts with a string, an empty array, null or missing always
    ends in the error view with a non-empty text: the first error when
    it is a non-empty string, and 'Upload failed' otherwise. *)
Theorem error_snapshot_view (s : State) (fields : list (string * JS.value)) :
  inflight s <> O ->
  JS.is_str (JS.lookup "status" fields) "error" = true ->
  (exists msg rest, JS.lookup "errors" fields = JS.Arr (JS.Str msg :: rest))
  \/ JS.lookup "errors" fields = JS.Arr []
  \/ JS.lookup "errors" fields = JS.Null
  \/ JS.lookup "errors" fields = JS.Undefined ->
  exists text,
    render (fst (step jobId s (Settle (Async.Resolved (JS.Obj fields)))))
    = ErrorView (JS.Str text)
    /\ Runtime.nonempty text = true
    /\ (forall msg rest,
          JS.lookup "errors" fields = JS.Arr (JS.Str msg :: rest) ->
          text = (if Runtime.nonempty msg then msg else "Upload failed"))
    /\ (JS.lookup "errors" fields = JS.Arr []
        \/ JS.lookup "errors" fields = JS.Null
        \/ JS.lookup "errors" fields = JS.Undefined ->
        text = "Upload failed").
Proof.
  intros Hn He Herr. simpl.
  destruct (inflight s) as [|n]; [congruence|].
  simpl. rewrite He. simpl. unfold render. simpl.
  unfold JS.get_opt, JS.get.
  destruct Herr as [(msg & rest & Hm)|Hempty].
  - rewrite Hm. simpl. unfold JS.or. simpl.
    destruct msg as [|c msg'].
    + exists "Upload failed". simpl.
      split; [reflexivity|]. split; [reflexivity|]. split.
      * intros msg rest' E. inversion E. reflexivity.
      * intros [H|[H|H]]; discriminate.
    + exists (String c msg'). simpl.
      split; [reflexivity|]. split; [reflexivity|]. split.
      * intros msg rest' E. inversion E. reflexivity.
      * intros [H|[H|H]]; discriminate.
  - exists "Upload failed".
    destruct Hempty as [H|[H|H]]; rewrite H; simpl;
      (split; [reflexivity|]; split; [reflexivity|]; split;
       [intros msg rest E; discriminate | reflexivity]).
Qed.

(** While no error is shown, a snapshot without [results] (or with an
    empty array) is rendered with the count 0, and one with a non-empty
    array with the number of its entries. *)
Lemma progress_view_count (fields : list (string * JS.value))
  (s : State) :
  status s = JS.Obj fields -> JS.truthy (error s) = false ->
  (JS.lookup "results" fields = JS.Undefined
   \/ JS.lookup "results" fields = JS.Null
   \/ JS.lookup "results" fields = JS.Arr [] ->
   render s = ProgressView (JS.lookup "progress" fields) (JS.Num 0)
                (JS.lookup "total_files" fields)
                (JS.lookup "current_step" fields))
  /\ (forall r rs,
        JS.lookup "results" fields = JS.Arr (r :: rs) ->
        render s
        = ProgressView (JS.lookup "progress" fields)
            (JS.Num (inject_Z (Z.of_nat (List.length (r :: rs)))))
            (JS.lookup "total_files" fields)
            (JS.lookup "current_step" fields)).
Proof.
  intros Hs He. unfold render. rewrite Hs, He. simpl.
  unfold JS.get_opt. simpl. split.
  - intros [H|[H|H]]; rewrite H; reflexivity.
  - intros r rs H. rewrite H. reflexivity.
Qed.

End PollingExtras.

(* ================================================================== *)
(** * Sets of the gallery *)

Section SetFacts.

Variable A : Type.
Variable eqb : A -> A -> bool.
Hypothesis eqb_eq : forall x y, eqb x y = true <-> x = y.

Lemma has_In (x : A) (s : list A) : JSSet.has eqb x s = true <-> In x s.
Proof.
  unfold JSSet.has. rewrite existsb_exists. split.
  - intros (y & Hy & E). apply eqb_eq in E. subst. exact Hy.
  - intros H. exists x. split; [exact H|]. apply eqb_eq. reflexivity.
Qed.

Lemma has_false (x : A) (s : list A) :
  JSSet.has eqb x s = false <-> ~ In x s.
Proof.
  rewrite <- has_In. destruct (JSSet.has eqb x s); intuition congruence.
Qed.

Lemma add_In (x y : A) (s : list A) :
  In y (JSSet.add eqb x s) <-> y = x \/ In y s.
Proof.
  unfold JSSet.add. destruct (JSSet.has eqb x s) eqn:E.
  - apply has_In in E. split; [auto|]. intros [->|H]; assumption.
  - rewrite in_app_iff. simpl. split.
    + intros [H|[H|[]]]; auto.
    + intros [H|H]; auto.
Qed.

Lemma add_NoDup (x : A) (s : list A) :
  NoDup s -> NoDup (JSSet.add eqb x s).
Proof.
  intros Hs. unfold JSSet.add. destruct (JSSet.has eqb x s) eqn:E.
  - exact Hs.
  - apply has_false in E.
    apply NoDup_app; [exact Hs | constructor; [tauto|constructor] |].
    intros z Hz [<-|[]]. exact (E Hz).
Qed.

Lemma delete_In (x y : A) (s : list A) :
  In y (JSSet.delete eqb x s) <-> y <> x /\ In y s.
Proof.
  unfold JSSet.delete. rewrite filter_In, negb_true_iff. split.
  - intros [H E]. split; [|exact H]. intros ->.
    assert (eqb x x = true) by (apply eqb_eq; reflexivity). congruence.
  - intros [Hne H]. split; [exact H|].
    destruct (eqb x y) eqn:E; [|reflexivity].
    apply eqb_eq in E. congruence.
Qed.

Lemma delete_NoDup (x : A) (s : list A) :
  NoDup s -> NoDup (JSSet.delete eqb x s).
Proof. apply NoDup_filter. Qed.

Lemma delete_length (x : A) (s : list A) :
  NoDup s -> In x s ->
  S (List.length (JSSet.delete eqb x s)) = List.length s.
Proof.
  unfold JSSet.delete. induction s as [|y s IH]; intros Hnd Hin; [destruct Hin|].
  inversion Hnd as [|? ? Hy Hs]; subst. simpl.
  destruct (eqb x y) eqn:E; simpl.
  - apply eqb_eq in E. subst y. f_equal.
    f_equal. clear IH Hin Hnd Hs.
    induction s as [|z s IH]; [reflexivity|]. simpl.
    destruct (eqb x z) eqn:Ez.
    + apply eqb_eq in Ez. subst z. exfalso. apply Hy. left. reflexivity.
    + simpl. f_equal. apply IH. intros H. apply Hy. right. exact H.
  - f_equal. apply IH; [exact Hs|].
    destruct Hin as [->|H]; [|exact H].
    assert (eqb x x = true) by (apply eqb_eq; reflexivity). congruence.
Qed.

Lemma of_list_acc (l acc : list A) :
  (forall x, In x (fold_left (fun s x => JSSet.add eqb x s) l acc)
             <-> In x acc \/ In x l)
  /\ (NoDup acc -> NoDup (fold_left (fun s x => JSSet.add eqb x s) l acc)).
Proof.
  revert acc. induction l as [|y l IH]; intros acc; simpl.
  - split; [intros x; tauto|auto].
  - destruct (IH (JSSet.add eqb y acc)) as [H1 H2]. split.
    + intros x. rewrite H1, add_In. split.
      * intros [[->|H]|H]; auto.
      * intros [H|[->|H]]; auto.
    + intros Hacc. apply H2, add_NoDup, Hacc.
Qed.

Lemma of_list_In (l : list A) (x : A) :
  In x (JSSet.of_list eqb l) <-> In x l.
Proof.
  unfold JSSet.of_list. destruct (of_list_acc l []) as [H _].
  rewrite H. simpl. tauto.
Qed.

Lemma of_list_NoDup (l : list A) : NoDup (JSSet.of_list eqb l).
Proof.
  unfold JSSet.of_list. destruct (of_list_acc l []) as [_ H].
  apply H. constructor.
Qed.

End SetFacts.

(* ================================================================== *)
(** * Properties of the gallery *)

Section SelectionFacts.
Import Gallery.

(** X10: toggling an image keeps the selection a set, flips whether that
    image is selected and nothing else, changes the count shown by
    exactly one, and toggling twice selects the same images as
    before. *)
Theorem toggle_select (p : string) (s : list string) :
  NoDup s ->
  NoDup (toggleSelectImage p s)
  /\ (forall q, In q (toggleSelectImage p s)
                <-> (q = p /\ ~ In p s) \/ (q <> p /\ In q s))
  /\ List.length (toggleSelectImage p s)
     = (if JSSet.has String.eqb p s
        then pred (List.length s) else S (List.length s))
  /\ (forall q, In q (toggleSelectImage p (toggleSelectImage p s))
                <-> In q s).
Proof.
  intros Hs.
  assert (Hmem : forall s', forall q,
             In q (toggleSelectImage p s')
             <-> (q = p /\ ~ In p s') \/ (q <> p /\ In q s')).
  { intros s' q. unfold toggleSelectImage.
    destruct (JSSet.has String.eqb p s') eqn:E.
    - apply (has_In _ _ String.eqb_eq) in E.
      rewrite (delete_In _ _ String.eqb_eq). tauto.
    - apply (has_false _ _ String.eqb_eq) in E.
      rewrite (add_In _ _ String.eqb_eq).
      destruct (string_dec q p) as [->|Hne]; tauto. }
  split; [|split; [apply Hmem|split]].
  - unfold toggleSelectImage. destruct (JSSet.has String.eqb p s).
    + apply delete_NoDup, Hs.
    + apply (add_NoDup _ _ String.eqb_eq), Hs.
  - unfold toggleSelectImage.
    destruct (JSSet.has String.eqb p s) eqn:E.
    + apply (has_In _ _ String.eqb_eq) in E.
      rewrite <- (delete_length _ _ String.eqb_eq p s Hs E). reflexivity.
    + unfold JSSet.add. rewrite E, length_app. simpl. apply Nat.add_1_r.
  - intros q. rewrite !Hmem.
    destruct (string_dec q p) as [->|Hne];
      destruct (in_dec string_dec p s); tauto.
Qed.

Section WithBuiltins.
Variable B : Runtime.Builtins.

(** X11: "Select All" selects exactly the images the search shows: a
    path is selected afterwards if and only if it is the path of a
    shown image, and each path is selected once. *)
Theorem select_all_shown (images : list Image) (searchQuery : string)
  (p : string) :
  (In p (selectAllImages (filteredImages B images searchQuery))
   <-> exists img, In img (filteredImages B images searchQuery)
                   /\ img_path img = p)
  /\ NoDup (selectAllImages (filteredImages B images searchQuery)).
Proof.
  unfold selectAllImages. split.
  - rewrite (of_list_In _ _ String.eqb_eq), in_map_iff.
    split; intros (img & H1 & H2); exists img; auto.
  - apply (of_list_NoDup _ _ String.eqb_eq).
Qed.

(** X12: a search query that is empty, or blank once trimmed, shows
    every image, in the order of the library. *)
Theorem blank_search_shows_all (images : list Image) (searchQuery : string) :
  Runtime.nonempty (Runtime.trim B searchQuery) = false ->
  filteredImages B images searchQuery = images.
Proof.
  intros H. unfold filteredImages. rewrite H. simpl.
  induction images as [|img images IH]; [reflexivity|].
  simpl. rewrite IH. reflexivity.
Qed.

End WithBuiltins.

Lemma selectedImageList_In (images : list Image) (sel : list string)
  (img : Image) :
  In img (selectedImageList images sel)
  <-> exists path, In path sel
                   /\ find (fun i => String.eqb (img_path i) path) images
                      = Some img.
Proof.
  unfold selectedImageList. rewrite in_flat_map. split.
  - intros (path & Hp & H). exists path. split; [exact Hp|].
    destruct (find _ images) as [i|]; [|destruct H].
    destruct H as [->|[]]. reflexivity.
  - intros (path & Hp & H). exists path. split; [exact Hp|].
    rewrite H. left. reflexivity.
Qed.

(** X13: the tags shown as "applied to all" are exactly the known tags
    that every selected image of the library carries (by tag id), when
    at least one selected path is an image of the library; with no
    selection, or none that is in the library, nothing is shown. *)
Theorem common_tags_spec (images : list Image) (sel : list string)
  (tags : list Tag) (tag : Tag) :
  In tag (getCommonTags images sel tags)
  <-> In tag tags
      /\ selectedImageList images sel <> []
      /\ forall img, In img (selectedImageList images sel) ->
                     exists t, In t (img_tags img) /\ tag_id t = tag_id tag.
Proof.
  unfold getCommonTags.
  destruct sel as [|p sel'] eqn:Esel.
  - simpl. split; [intros []|]. intros (_ & H & _). congruence.
  - rewrite <- Esel. clear Esel.
    destruct (selectedImageList images sel) as [|first rest] eqn:El.
    + split; [intros []|]. intros (_ & H & _). congruence.
    + rewrite filter_In, existsb_exists. split.
      * intros (Ht & id & Hid & E). apply Z.eqb_eq in E. subst id.
        apply filter_In in Hid. destruct Hid as [_ Hall].
        rewrite forallb_forall in Hall.
        split; [exact Ht|]. split; [discriminate|].
        intros img Himg. specialize (Hall img Himg).
        apply existsb_exists in Hall. destruct Hall as (t & Ht' & E).
        apply Z.eqb_eq in E. exists t. auto.
      * intros (Ht & _ & Hall). split; [exact Ht|].
        exists (tag_id tag). split; [|apply Z.eqb_refl].
        apply filter_In. split.
        -- apply (of_list_In _ _ Z.eqb_eq), in_map_iff.
           destruct (Hall first (or_introl eq_refl)) as (t & Ht' & E).
           exists t. auto.
        -- apply forallb_forall. intros img Himg.
           apply existsb_exists.
           destruct (Hall img Himg) as (t & Ht' & E).
           exists t. split; [exact Ht'|]. apply Z.eqb_eq. exact E.
Qed.

End SelectionFacts.

Section TagFacts.
Import Gallery.

Lemma detailAvailableTags_In (tags : list Tag) (image : DetailImage)
  (tag : Tag) :
  In tag (detailAvailableTags tags image)
  <-> In tag tags
      /\ forall ts t, di_tags image = Some ts -> In t ts ->
                      tag_id t <> tag_id tag.
Proof.
  unfold detailAvailableTags, appliedTagIds.
  rewrite filter_In, negb_true_iff, (has_false _ _ Z.eqb_eq),
    (of_list_In _ _ Z.eqb_eq).
  destruct (di_tags image) as [ts|].
  - rewrite in_map_iff. split.
    + intros [Ht Hn]. split; [exact Ht|].
      intros ts' t E Hin Heq. inversion E; subst ts'.
      apply Hn. exists t. auto.
    + intros [Ht Hn]. split; [exact Ht|].
      intros (t & Heq & Hin). exact (Hn ts t eq_refl Hin Heq).
  - simpl. split.
    + intros [Ht _]. split; [exact Ht|]. intros ts t E. discriminate.
    + intros [Ht _]. auto.
Qed.

(** X14: the detail modal offers exactly the tags of the library that
    are not yet on the image (by tag id); for an image without a [tags]
    field it offers all of them, as they are. *)
Theorem detail_available_tags (tags : list Tag) (image : DetailImage)
  (tag : Tag) :
  (In tag (detailAvailableTags tags image)
   <-> In tag tags
       /\ forall ts t, di_tags image = Some ts -> In t ts ->
                       tag_id t <> tag_id tag)
  /\ (di_tags image = None -> detailAvailableTags tags image = tags).
Proof.
  split; [apply detailAvailableTags_In|].
  unfold detailAvailableTags, appliedTagIds.
  intros ->. simpl.
  induction tags as [|t tags IH]; [reflexivity|].
  simpl. rewrite IH. reflexivity.
Qed.

(** X15: the two ways the gallery computes the tags still available to
    an image agree: the detail modal (a [Set] of the applied ids) and
    the side panel of App ([some] over the image's tags) keep the same
    tags in the same order. *)
Theorem available_tags_agree (tags : list Tag) (image : DetailImage)
  (img : Image) :
  di_tags image = Some (img_tags img) ->
  detailAvailableTags tags image = availableTags tags (Some img).
Proof.
  intros E. unfold detailAvailableTags, availableTags, appliedTagIds.
  rewrite E. apply filter_ext. intros tag. f_equal.
  destruct (existsb (fun t => Z.eqb (tag_id t) (tag_id tag)) (img_tags img))
    eqn:Ex.
  - apply (has_In _ _ Z.eqb_eq), (of_list_In _ _ Z.eqb_eq), in_map_iff.
    apply existsb_exists in Ex. destruct Ex as (t & Hin & Heq).
    apply Z.eqb_eq in Heq. exists t. auto.
  - apply (has_false _ _ Z.eqb_eq).
    rewrite (of_list_In _ _ Z.eqb_eq), in_map_iff.
    intros (t & Heq & Hin).
    assert (H : existsb (fun t => Z.eqb (tag_id t) (tag_id tag))
                  (img_tags img) = true).
    { apply existsb_exists. exists t. split; [exact Hin|].
      apply Z.eqb_eq. exact Heq. }
    congruence.
Qed.

Section WithBuiltins.
Variable B : Runtime.Builtins.

Lemma filteredTags_In (tags : list Tag) (q : string) (t : Tag) :
  In t (filteredTags B tags q)
  <-> In t tags
      /\ Runtime.includes B (Runtime.toLowerCase B (tag_name t))
           (Runtime.toLowerCase B q) = true.
Proof. unfold filteredTags. apply filter_In. Qed.

(** X16: in the tag input, "Create" is offered exactly when the query
    is not blank and no tag of the list has that name, compared in
    lower case with the untrimmed query (a string includes itself). *)
Theorem can_create_tag (tags : list Tag) (q : string) :
  Runtime.includes B (Runtime.toLowerCase B q) (Runtime.toLowerCase B q)
  = true ->
  (canCreateTag B tags q = true
   <-> Runtime.nonempty (Runtime.trim B q) = true
       /\ forall t, In t tags ->
                    Runtime.toLowerCase B (tag_name t)
                    <> Runtime.toLowerCase B q).
Proof.
  intros Hrefl. unfold canCreateTag.
  rewrite andb_true_iff, negb_true_iff. split.
  - intros [Hq Hex]. split; [exact Hq|].
    intros t Ht Heq.
    assert (H : existsb
                  (fun t => String.eqb (Runtime.toLowerCase B (tag_name t))
                              (Runtime.toLowerCase B q))
                  (filteredTags B tags q) = true).
    { apply existsb_exists. exists t. split.
      - apply filteredTags_In. split; [exact Ht|].
        rewrite Heq. exact Hrefl.
      - apply String.eqb_eq. exact Heq. }
    congruence.
  - intros [Hq Hall]. split; [exact Hq|].
    destruct (existsb _ (filteredTags B tags q)) eqn:Ex; [|reflexivity].
    apply existsb_exists in Ex. destruct Ex as (t & Ht & Heq).
    apply filteredTags_In in Ht. apply String.eqb_eq in Heq.
    exfalso. exact (Hall t (proj1 Ht) Heq).
Qed.

(** X17: in the detail modal "Create" is offered for a name that a tag
    of the library already has, whenever every tag of that name is
    already on the image: the input is given the available tags only,
    so it cannot see them. *)
Theorem create_offered_for_applied_tag (tags : list Tag)
  (image : DetailImage) (ts : list Tag) (q : string) :
  di_tags image = Some ts ->
  Runtime.nonempty (Runtime.trim B q) = true ->
  (forall t, In t tags ->
             Runtime.toLowerCase B (tag_name t) = Runtime.toLowerCase B q ->
             exists t', In t' ts /\ tag_id t' = tag_id t) ->
  canCreateTag B (detailAvailableTags tags image) q = true.
Proof.
  intros E Hq Hall. unfold canCreateTag. rewrite Hq. simpl.
  apply negb_true_iff.
  destruct (existsb _ (filteredTags B (detailAvailableTags tags image) q))
    eqn:Ex; [|reflexivity].
  apply existsb_exists in Ex. destruct Ex as (t & Ht & Heq).
  apply filteredTags_In in Ht. destruct Ht as [Ht _].
  apply String.eqb_eq in Heq.
  apply detailAvailableTags_In in Ht. destruct Ht as [Ht Hn].
  destruct (Hall t Ht Heq) as (t' & Hin & Hid).
  exfalso. exact (Hn ts t' E Hin Hid).
Qed.

Lemma handleCreateTags_names (tagInput : string) (names : list string) :
  handleCreateTags B tagInput = Some names ->
  names <> []
  /\ Forall (fun n => Runtime.nonempty n = true
                      /\ exists piece,
                           In piece (Runtime.split B tagInput ",")
                           /\ n = Runtime.trim B piece) names.
Proof.
  unfold handleCreateTags.
  destruct (negb (Runtime.nonempty (Runtime.trim B tagInput)));
    [discriminate|].
  destruct (filter Runtime.nonempty
              (map (Runtime.trim B) (Runtime.split B tagInput ",")))
    as [|n ns] eqn:E; [discriminate|].
  intros H. inversion H; subst names. split; [discriminate|].
  rewrite <- E. apply Forall_forall. intros m Hm.
  apply filter_In in Hm. destruct Hm as [Hm Hne]. split; [exact Hne|].
  apply in_map_iff in Hm. destruct Hm as (piece & Hp & Hin).
  exists piece. auto.
Qed.

(** X18: the tag creation dialog previews names only when there is
    something to create: the list it shows is never empty, every name in
    it is a non-empty trimmed piece of the input between commas. *)
Theorem create_tags_preview (tagInput : string) (names : list string) :
  handleCreateTags B tagInput = Some names ->
  names <> []
  /\ Forall (fun n => Runtime.nonempty n = true
                      /\ exists piece,
                           In piece (Runtime.split B tagInput ",")
                           /\ n = Runtime.trim B piece) names.
Proof. apply handleCreateTags_names. Qed.

End WithBuiltins.

End TagFacts.

Section RequestFacts.
Import Gallery.

Variable server : Request -> Async.outcome.

Lemma effects_app {Req Eff : Type} (t u : list (Async.action Req Eff)) :
  Async.effects (t ++ u) = (Async.effects t ++ Async.effects u)%list.
Proof. unfold Async.effects. apply flat_map_app. Qed.

Lemma requests_sent {Req Eff : Type} (l : list Req) :
  Async.requests (map (@Async.Sent Req Eff) l) = l.
Proof.
  induction l as [|r l IH]; [reflexivity|]. simpl. f_equal. exact IH.
Qed.

Lemma effects_sent {Req Eff : Type} (l : list Req) :
  Async.effects (map (@Async.Sent Req Eff) l) = [].
Proof. induction l as [|r l IH]; [reflexivity|]. exact IH. Qed.

(** A loop whose fetches all resolve sends them in order and goes on. *)
Lemma run_for_each_ok (reqs : list Request) (k : prog) :
  Forall (resolves server) reqs ->
  Async.run server (for_each reqs k)
  = (map Async.Sent reqs ++ Async.run server k)%list.
Proof.
  induction 1 as [|r reqs [data Hr] _ IH]; [reflexivity|].
  simpl. rewrite Hr, IH. reflexivity.
Qed.

(** A loop stops at its first rejected fetch and logs the message. *)
Lemma run_for_each_fail (l1 l2 : list Request) (r : Request) (m : string)
  (k : prog) :
  Forall (resolves server) l1 -> server r = Async.Rejected m ->
  Async.run server (for_each (l1 ++ r :: l2) k)
  = (map Async.Sent l1
     ++ [Async.Sent r; Async.Did (ConsoleError m)])%list.
Proof.
  intros H Hr. induction H as [|r' l1 [data Hr'] _ IH]; simpl.
  - rewrite Hr. reflexivity.
  - rewrite Hr', IH. reflexivity.
Qed.

Lemma for_each_requests_In (reqs : list Request) (k : prog) (r : Request) :
  In r (Async.requests (Async.run server (for_each reqs k))) ->
  In r reqs \/ In r (Async.requests (Async.run server k)).
Proof.
  induction reqs as [|r' reqs IH]; simpl; [auto|].
  destruct (server r') as [m|data]; simpl.
  - intros [H|[]]. auto.
  - intros [H|H]; [auto|]. destruct (IH H); auto.
Qed.

Lemma loadTags_run (k : prog) :
  exists e, Async.run server (loadTags k)
            = (Async.Sent (get "/tags") :: Async.Did e
               :: Async.run server k).
Proof.
  unfold loadTags. simpl. destruct (server (get "/tags")) as [m|data].
  - eexists. reflexivity.
  - destruct (JS.get data "tags"); eexists; reflexivity.
Qed.

Lemma loadImages_run (k : prog) :
  exists e, Async.run server (loadImages k)
            = (Async.Sent (get "/images") :: Async.Did e
               :: Async.run server k)
            /\ forall img, e <> SetSelectedImage img.
Proof.
  unfold loadImages. simpl. destruct (server (get "/images")) as [m|data].
  - eexists. split; [reflexivity|discriminate].
  - destruct (JS.get data "images"); eexists;
      (split; [reflexivity|discriminate]).
Qed.

(** X19: confirming the preview posts the names one by one, in order.
    When every post is answered, the tags are reloaded and the dialog is
    reset and closed.  When a post is rejected, the names after it are
    not sent, the tags are not reloaded, and the dialog stays as it is,
    though the names before it have been created. *)
Theorem confirm_create_tags (names : list string) :
  (Forall (fun n => resolves server (createTagRequest n)) names ->
   Async.requests (Async.run server (confirmCreateTags (Some names)))
   = (map createTagRequest names ++ [get "/tags"])%list
   /\ exists e,
        Async.effects (Async.run server (confirmCreateTags (Some names)))
        = [e; SetTagInput EmptyString; SetTagPreview None;
           SetShowTagModal false])
  /\ (forall l1 n l2 m,
        names = (l1 ++ n :: l2)%list ->
        Forall (fun n => resolves server (createTagRequest n)) l1 ->
        server (createTagRequest n) = Async.Rejected m ->
        Async.requests (Async.run server (confirmCreateTags (Some names)))
        = map createTagRequest (l1 ++ [n])
        /\ Async.effects (Async.run server (confirmCreateTags (Some names)))
           = [ConsoleError m]).
Proof.
  unfold confirmCreateTags. split.
  - intros H.
    rewrite run_for_each_ok by (apply Forall_map; exact H).
    destruct (loadTags_run
                (Async.Emit (SetTagInput EmptyString)
                   (Async.Emit (SetTagPreview None)
                      (Async.Emit (SetShowTagModal false) Async.Done))))
      as [e He].
    rewrite He. split.
    + rewrite (@requests_app Request Effect), requests_sent. reflexivity.
    + exists e. rewrite effects_app, effects_sent. reflexivity.
  - intros l1 n l2 m -> H Hn.
    rewrite map_app. simpl map.
    rewrite (run_for_each_fail _ _ _ m) by
      (try (apply Forall_map; exact H); exact Hn).
    split.
    + rewrite (@requests_app Request Effect), requests_sent, map_app.
      reflexivity.
    + rewrite effects_app, effects_sent. reflexivity.
Qed.

Section WithBuiltins.
Variable B : Runtime.Builtins.

(** X20: whatever is typed into the tag creation dialog, previewing and
    confirming it never posts a tag with an empty name: every request is
    the reload of the tags or the creation of a tag with a non-empty
    name. *)
Theorem no_empty_tag_created (tagInput : string) (r : Request) :
  In r (Async.requests
          (Async.run server
             (confirmCreateTags (handleCreateTags B tagInput)))) ->
  r = get "/tags"
  \/ exists n, Runtime.nonempty n = true /\ r = createTagRequest n.
Proof.
  destruct (handleCreateTags B tagInput) as [names|] eqn:E;
    [|intros []].
  destruct (handleCreateTags_names B tagInput names E) as [_ Hall].
  unfold confirmCreateTags. intros H.
  apply for_each_requests_In in H. destruct H as [H|H].
  - right. apply in_map_iff in H. destruct H as (n & <- & Hn).
    rewrite Forall_forall in Hall. exists n. split; [|reflexivity].
    exact (proj1 (Hall n Hn)).
  - left.
    destruct (loadTags_run
                (Async.Emit (SetTagInput EmptyString)
                   (Async.Emit (SetTagPreview None)
                      (Async.Emit (SetShowTagModal false) Async.Done))))
      as [e He].
    rewrite He in H. simpl in H. destruct H as [<-|[]]. reflexivity.
Qed.

End WithBuiltins.

(** X21: tagging the selection posts (or deletes) the tag for the
    selected paths one by one, in the order of selection, and reloads
    the images when every request is answered; when a post is rejected
    the rest of the selection is left untagged and nothing is
    reloaded. *)
Theorem batch_tagging (sel : list string) (tagId : Z) :
  (Forall (fun p => resolves server (tagRequest "POST" p tagId)) sel ->
   Async.requests (Async.run server (addTagToSelected sel tagId))
   = (map (fun p => tagRequest "POST" p tagId) sel ++ [get "/images"])%list)
  /\ (Forall (fun p => resolves server (tagRequest "DELETE" p tagId)) sel ->
      Async.requests (Async.run server (removeTagFromSelected sel tagId))
      = (map (fun p => tagRequest "DELETE" p tagId) sel
         ++ [get "/images"])%list)
  /\ (forall l1 p l2 m,
        sel = (l1 ++ p :: l2)%list ->
        Forall (fun p => resolves server (tagRequest "POST" p tagId)) l1 ->
        server (tagRequest "POST" p tagId) = Async.Rejected m ->
        Async.requests (Async.run server (addTagToSelected sel tagId))
        = map (fun p => tagRequest "POST" p tagId) (l1 ++ [p])
        /\ Async.effects (Async.run server (addTagToSelected sel tagId))
           = [ConsoleError m]).
Proof.
  unfold addTagToSelected, removeTagFromSelected.
  split; [|split].
  - intros H.
    rewrite run_for_each_ok by (apply Forall_map; exact H).
    destruct (loadImages_run
                (Async.Emit (SetBatchTagSearch EmptyString) Async.Done))
      as (e & He & _).
    rewrite He, (@requests_app Request Effect), requests_sent. reflexivity.
  - intros H.
    rewrite run_for_each_ok by (apply Forall_map; exact H).
    destruct (loadImages_run Async.Done) as (e & He & _).
    rewrite He, (@requests_app Request Effect), requests_sent. reflexivity.
  - intros l1 p l2 m -> H Hp.
    rewrite map_app. simpl map.
    rewrite (run_for_each_fail _ _ _ m) by
      (try (apply Forall_map; exact H); exact Hp).
    split.
    + rewrite (@requests_app Request Effect), requests_sent, map_app.
      reflexivity.
    + rewrite effects_app, effects_sent. reflexivity.
Qed.

(** X22: removing a tag from the open image updates the panel as soon as
    the request is answered, whatever the answer says (its body is not
    read): the image then carries no tag of that id and keeps its other
    tags in order.  Adding a tag updates the panel only when the body
    has no truthy [error] and the tag is among the known tags. *)
Theorem tag_panel_updates (tags : list Tag) (img : Image) (tagId : Z) :
  (forall img',
      In (Async.Did (SetSelectedImage img'))
         (Async.run server (removeTagFromImage (Some img) tagId))
      <-> resolves server (tagRequest "DELETE" (img_path img) tagId)
          /\ img' = withTagRemoved img tagId)
  /\ (forall t, In t (img_tags (withTagRemoved img tagId))
                <-> In t (img_tags img) /\ tag_id t <> tagId)
  /\ (forall img',
        In (Async.Did (SetSelectedImage img'))
           (Async.run server (addTagToImage tags (Some img) tagId))
        <-> exists data err t,
              server (tagRequest "POST" (img_path img) tagId)
              = Async.Resolved data
              /\ JS.get data "error" = Some err
              /\ JS.truthy err = false
              /\ find (fun t => Z.eqb (tag_id t) tagId) tags = Some t
              /\ img' = withTagAdded img t).
Proof.
  destruct (loadImages_run Async.Done) as (e & He & Hne).
  remember (loadImages Async.Done) as reload eqn:Er.
  split; [|split].
  - intros img'. unfold removeTagFromImage, resolves. rewrite <- Er.
    simpl. destruct (server _) as [m|data]; simpl.
    + split.
      * intros [H|[H|[]]]; discriminate.
      * intros [[d H] _]. discriminate.
    + rewrite He. simpl. split.
      * intros [H|[H|[H|[H|[]]]]]; try discriminate.
        -- inversion H. split; [eauto|reflexivity].
        -- inversion H. exfalso. eapply Hne. eassumption.
      * intros [_ ->]. right. left. reflexivity.
  - intros t. simpl. rewrite filter_In, negb_true_iff, Z.eqb_neq. tauto.
  - intros img'. unfold addTagToImage. rewrite <- Er. simpl.
    destruct (server _) as [m|data] eqn:Es; simpl.
    + split.
      * intros [H|[H|[]]]; discriminate.
      * intros (d & e0 & t & H & _). discriminate.
    + destruct (JS.get data "error") as [err|] eqn:Eg; simpl.
      * destruct (JS.truthy err) eqn:Et; simpl.
        -- split.
           ++ intros [H|[]]. discriminate.
           ++ intros (d & e0 & t & H1 & H2 & H3 & _).
              inversion H1; subst d. rewrite Eg in H2.
              inversion H2; subst e0. congruence.
        -- destruct (find _ tags) as [t|] eqn:Ef; simpl; rewrite He; simpl.
           ++ split.
              ** intros [H|[H|[H|[H|[]]]]]; try discriminate.
                 --- inversion H. exists data, err, t. auto.
                 --- inversion H. exfalso. eapply Hne. eassumption.
              ** intros (d & e' & t' & H1 & H2 & H3 & H4 & ->).
                 inversion H4; subst t'. right. left. reflexivity.
           ++ split.
              ** intros [H|[H|[H|[]]]]; try discriminate.
                 inversion H. exfalso. eapply Hne. eassumption.
              ** intros (d & e' & t' & _ & _ & _ & H & _). discriminate.
      * split.
        -- intros [H|[H|[]]]; discriminate.
        -- intros (d & e0 & t & H1 & H2 & _).
           inversion H1; subst d. congruence.
Qed.

End RequestFacts.

Section RoundTrips.
Import Gallery.

(** X23: a tag added to the open image and removed again leaves the
    tags of the image as they were, provided the image did not carry a
    tag of that id before. *)
Theorem add_then_remove_tag (img : Image) (t : Tag) :
  (forall t', In t' (img_tags img) -> tag_id t' <> tag_id t) ->
  withTagRemoved (withTagAdded img t) (tag_id t) = img.
Proof.
  intros H. destruct img as [p n ts]. unfold withTagRemoved, withTagAdded.
  simpl in *. f_equal.
  rewrite filter_app. simpl. rewrite Z.eqb_refl. simpl.
  rewrite app_nil_r.
  induction ts as [|t' ts IH]; [reflexivity|].
  simpl. destruct (Z.eqb (tag_id t') (tag_id t)) eqn:E.
  - apply Z.eqb_eq in E. exfalso. exact (H t' (or_introl eq_refl) E).
  - simpl. f_equal. apply IH. intros t'' Ht. apply H. right. exact Ht.
Qed.

Lemma getItem_setItem (k v : string) (st : Storage.t) :
  Storage.getItem k (Storage.setItem k v st) = Some v.
Proof.
  induction st as [|[k' v'] st IH]; simpl.
  - rewrite String.eqb_refl. reflexivity.
  - destruct (String.eqb k k') eqn:E; simpl; rewrite ?String.eqb_refl, ?E;
      [reflexivity|exact IH].
Qed.

Lemma getItem_setItem_other (k k' v : string) (st : Storage.t) :
  k' <> k ->
  Storage.getItem k' (Storage.setItem k v st) = Storage.getItem k' st.
Proof.
  intros Hne. induction st as [|[k0 v0] st IH]; simpl.
  - apply String.eqb_neq in Hne. rewrite Hne. reflexivity.
  - destruct (String.eqb k k0) eqn:E; simpl.
    + apply String.eqb_eq in E. subst k0.
      apply String.eqb_neq in Hne. rewrite Hne. reflexivity.
    + rewrite IH. reflexivity.
Qed.

(** X24: the theme survives a reload: the theme the effect has stored is
    the one the next start reads back, the default 'dark' standing in
    for an empty value as it does when nothing is stored. *)
Theorem theme_round_trip (theme : string) (st : Storage.t) :
  initialTheme (applyTheme theme st)
  = (if Runtime.nonempty theme then theme else "dark")
  /\ initialTheme [] = "dark".
Proof.
  unfold initialTheme, applyTheme. rewrite getItem_setItem. auto.
Qed.

(** X25: the welcome banner closed with "don't show again" stays away at
    the next start; closed without, it comes back when it was shown
    before, the storage being untouched; and in neither case does
    closing it change the stored theme. *)
Theorem banner_dismissal (dontShowAgain : bool) (st : Storage.t) :
  InfoBanner.mount (fst (InfoBanner.handleClose true st)) = false
  /\ fst (InfoBanner.handleClose false st) = st
  /\ snd (InfoBanner.handleClose dontShowAgain st) = false
  /\ initialTheme (fst (InfoBanner.handleClose dontShowAgain st))
     = initialTheme st.
Proof.
  unfold InfoBanner.mount, InfoBanner.handleClose. simpl.
  rewrite getItem_setItem. repeat split.
  destruct dontShowAgain; [|reflexivity]. simpl.
  unfold initialTheme. rewrite getItem_setItem_other; [reflexivity|].
  discriminate.
Qed.

End RoundTrips.

(** [target_aspect_16_9] on a.jpg, 1920 by 1080: accepted without a
    crop box. *)
Lemma target_aspect_16_9_scenario :
  (0 < Pipeline.uf_height Scenario.a_jpg)%Z
  /\ (Pipeline.uf_width Scenario.a_jpg * 9
      = Pipeline.uf_height Scenario.a_jpg * 16)%Z
  /\ Pipeline.aspect_check Pipeline.default_config true Scenario.a_jpg
     = Pipeline.Accepted.
Proof.
  split; [reflexivity|]. split; [reflexivity|].
  destruct target_aspect_16_9 as (_ & _ & _ & _ & _ & _ & H & _).
  exact (H Scenario.a_jpg true eq_refl eq_refl).
Defined.

(* ================================================================== *)
(** * The gallery and the modals on sample data *)

(** [idle_moves_keep_box]: moves before any press on the preview. *)
Lemma idle_moves_keep_box_example :
  let evs :=
    [CropPositioning.MouseMove
       {| CropPositioning.clientX := 150; CropPositioning.clientY := 90 |}
       (Some {| CropPositioning.left := 10; CropPositioning.top := 20 |});
     CropPositioning.MouseDown
       {| CropPositioning.clientX := 150; CropPositioning.clientY := 90 |}
       None;
     CropPositioning.MouseMove
       {| CropPositioning.clientX := 300; CropPositioning.clientY := 10 |}
       (Some {| CropPositioning.left := 10; CropPositioning.top := 20 |});
     CropPositioning.MouseUp] in
  CropPositioning.isDragging CropPositioning.initial = false
  /\ CropPositioning.cropBox
       (CropPositioning.play (aspect_info Scenario.d_entry) evs
          CropPositioning.initial)
     = CropPositioning.cropBox CropPositioning.initial.
Proof.
  intros evs. split; [reflexivity|].
  apply (idle_moves_keep_box (aspect_info Scenario.d_entry) evs
           CropPositioning.initial eq_refl).
  repeat constructor.
Defined.

(** [moveBox_clamps]: the default box pushed far to the right and up. *)
Lemma moveBox_clamps_example :
  CropPositioning.valid (CropPositioning.cropBox CropPositioning.initial)
  /\ CropPositioning.x
       (CropPositioning.moveBox 5 (-5)
          (CropPositioning.cropBox CropPositioning.initial)) == 0.2
  /\ CropPositioning.y
       (CropPositioning.moveBox 5 (-5)
          (CropPositioning.cropBox CropPositioning.initial)) == 0.
Proof.
  split; [exact initial_valid|].
  destruct (moveBox_clamps 5 (-5)
              (CropPositioning.cropBox CropPositioning.initial)
              initial_valid) as [(_ & _ & Hx) (_ & Hy & _)].
  split.
  - rewrite Hx; [reflexivity | vm_compute; discriminate].
  - apply Hy. vm_compute. discriminate.
Defined.

(** [error_snapshot_view]: an error snapshot without [errors]. *)
Lemma error_snapshot_view_example :
  let s := fst (UploadProgress.step Scenario.jobId
                  (UploadProgress.mount Scenario.jobId) UploadProgress.Tick) in
  let fields := [("status", JS.Str "error")] in
  UploadProgress.inflight s <> O
  /\ JS.is_str (JS.lookup "status" fields) "error" = true
  /\ JS.lookup "errors" fields = JS.Undefined
  /\ exists text,
       UploadProgress.render
         (fst (UploadProgress.step Scenario.jobId s
                 (UploadProgress.Settle (Async.Resolved (JS.Obj fields)))))
       = UploadProgress.ErrorView (JS.Str text)
       /\ text = "Upload failed".
Proof.
  intros s fields.
  assert (Hn : UploadProgress.inflight s <> O) by discriminate.
  assert (Hu : JS.lookup "errors" fields = JS.Arr []
               \/ JS.lookup "errors" fields = JS.Null
               \/ JS.lookup "errors" fields = JS.Undefined)
    by (right; right; reflexivity).
  split; [exact Hn|]. split; [reflexivity|]. split; [reflexivity|].
  destruct (error_snapshot_view Scenario.jobId s fields Hn eq_refl
              (or_intror Hu)) as (text & Hr & _ & _ & Hf).
  exists text. split; [exact Hr | exact (Hf Hu)].
Defined.

(** [progress_view_count]: a snapshot without [results]. *)
Lemma progress_view_count_example :
  let fields := [("status", JS.Str "processing"); ("progress", JS.Num 0);
                 ("total_files", JS.Num 3)] in
  let s := {| UploadProgress.status := JS.Obj fields;
              UploadProgress.error := JS.Null;
              UploadProgress.timer := Some 300%Z;
              UploadProgress.inflight := 0 |} in
  UploadProgress.status s = JS.Obj fields
  /\ JS.truthy (UploadProgress.error s) = false
  /\ UploadProgress.render s
     = UploadProgress.ProgressView (JS.Num 0) (JS.Num 0) (JS.Num 3)
         JS.Undefined.
Proof.
  intros fields s. split; [reflexivity|]. split; [reflexivity|].
  exact (proj1 (progress_view_count fields s eq_refl eq_refl)
           (or_introl eq_refl)).
Defined.

Lemma sample_selection_NoDup : NoDup ["/mnt/a/lake.jpg"; "/mnt/a/street.jpg"].
Proof.
  constructor.
  - simpl. intros [H|[]]. discriminate.
  - constructor; [intros []|constructor].
Defined.

(** [toggle_select]: unselecting one of two selected images. *)
Lemma toggle_select_example :
  NoDup ["/mnt/a/lake.jpg"; "/mnt/a/street.jpg"]
  /\ List.length
       (Gallery.toggleSelectImage "/mnt/a/lake.jpg"
          ["/mnt/a/lake.jpg"; "/mnt/a/street.jpg"]) = 1%nat.
Proof.
  split; [exact sample_selection_NoDup|].
  exact (proj1 (proj2 (proj2
           (toggle_select "/mnt/a/lake.jpg"
              ["/mnt/a/lake.jpg"; "/mnt/a/street.jpg"]
              sample_selection_NoDup)))).
Defined.

(** [blank_search_shows_all]: a query of two spaces. *)
Lemma blank_search_shows_all_example :
  Runtime.nonempty (Runtime.trim Runtime.ascii "  ") = false
  /\ Gallery.filteredImages Runtime.ascii GalleryScenario.images "  "
     = GalleryScenario.images.
Proof.
  split; [reflexivity|].
  apply (blank_search_shows_all Runtime.ascii GalleryScenario.images "  ").
  reflexivity.
Defined.

(** [available_tags_agree]: the lake image in both views. *)
Lemma available_tags_agree_example :
  let image := {| Gallery.di_id := 11; Gallery.di_name := "lake.jpg";
                  Gallery.di_tags :=
                    Some (Gallery.img_tags GalleryScenario.lake) |} in
  Gallery.di_tags image = Some (Gallery.img_tags GalleryScenario.lake)
  /\ Gallery.detailAvailableTags GalleryScenario.tags image
     = Gallery.availableTags GalleryScenario.tags
         (Some GalleryScenario.lake).
Proof.
  intros image. split; [reflexivity|].
  apply (available_tags_agree GalleryScenario.tags image GalleryScenario.lake).
  reflexivity.
Defined.

(** [can_create_tag]: "Sea" is not a tag yet, "nature" is. *)
Lemma can_create_tag_example :
  Runtime.includes Runtime.ascii (Runtime.toLowerCase Runtime.ascii "Sea")
    (Runtime.toLowerCase Runtime.ascii "Sea") = true
  /\ (Gallery.canCreateTag Runtime.ascii GalleryScenario.tags "Sea" = true
      <-> Runtime.nonempty (Runtime.trim Runtime.ascii "Sea") = true
          /\ forall t, In t GalleryScenario.tags ->
                       Runtime.toLowerCase Runtime.ascii (Gallery.tag_name t)
                       <> Runtime.toLowerCase Runtime.ascii "Sea").
Proof.
  split; [reflexivity|].
  apply (can_create_tag Runtime.ascii GalleryScenario.tags "Sea").
  reflexivity.
Defined.

(** [create_offered_for_applied_tag]: "nature" is on the image already. *)
Lemma create_offered_for_applied_tag_example :
  Gallery.di_tags GalleryScenario.detail = Some [GalleryScenario.nature]
  /\ Runtime.nonempty (Runtime.trim Runtime.ascii "nature") = true
  /\ Gallery.canCreateTag Runtime.ascii
       (Gallery.detailAvailableTags GalleryScenario.tags
          GalleryScenario.detail) "nature" = true.
Proof.
  split; [reflexivity|]. split; [reflexivity|].
  apply (create_offered_for_applied_tag Runtime.ascii GalleryScenario.tags
           GalleryScenario.detail [GalleryScenario.nature] "nature");
    try reflexivity.
  intros t [<-|[<-|[<-|[]]]] H.
  - exists GalleryScenario.nature. split; [left|]; reflexivity.
  - discriminate H.
  - discriminate H.
Defined.

(** [create_tags_preview]: commas, blanks and three names. *)
Lemma create_tags_preview_example :
  Gallery.handleCreateTags Runtime.ascii "cats, Dogs ,, ,birds"
  = Some ["cats"; "Dogs"; "birds"]
  /\ ["cats"; "Dogs"; "birds"] <> []
  /\ Forall (fun n => Runtime.nonempty n = true
                      /\ exists piece,
                           In piece
                             (Runtime.split Runtime.ascii
                                "cats, Dogs ,, ,birds" ",")
                           /\ n = Runtime.trim Runtime.ascii piece)
       ["cats"; "Dogs"; "birds"].
Proof.
  split; [reflexivity|].
  apply (create_tags_preview Runtime.ascii "cats, Dogs ,, ,birds").
  reflexivity.
Defined.

(** [no_empty_tag_created]: the first request of that input. *)
Lemma no_empty_tag_created_example :
  In (Gallery.createTagRequest "cats")
     (Async.requests
        (Async.run GalleryScenario.accepting
           (Gallery.confirmCreateTags
              (Gallery.handleCreateTags Runtime.ascii
                 "cats, Dogs ,, ,birds"))))
  /\ (Gallery.createTagRequest "cats" = Gallery.get "/tags"
      \/ exists n, Runtime.nonempty n = true
                   /\ Gallery.createTagRequest "cats"
                      = Gallery.createTagRequest n).
Proof.
  assert (H : In (Gallery.createTagRequest "cats")
                (Async.requests
                   (Async.run GalleryScenario.accepting
                      (Gallery.confirmCreateTags
                         (Gallery.handleCreateTags Runtime.ascii
                            "cats, Dogs ,, ,birds"))))).
  { left. reflexivity. }
  split; [exact H|].
  exact (no_empty_tag_created GalleryScenario.accepting Runtime.ascii
           "cats, Dogs ,, ,birds" (Gallery.createTagRequest "cats") H).
Defined.

Lemma accepting_resolves (r : Gallery.Request) :
  Gallery.resolves GalleryScenario.accepting r.
Proof. eexists. reflexivity. Defined.

(** [confirm_create_tags]: two names against a server that answers. *)
Lemma confirm_create_tags_example :
  Async.requests
    (Async.run GalleryScenario.accepting
       (Gallery.confirmCreateTags (Some ["cats"; "birds"])))
  = [Gallery.createTagRequest "cats"; Gallery.createTagRequest "birds";
     Gallery.get "/tags"].
Proof.
  refine (proj1 (proj1 (confirm_create_tags GalleryScenario.accepting
                          ["cats"; "birds"]) _)).
  repeat constructor; apply accepting_resolves.
Defined.

(** [batch_tagging]: the second of three images cannot be reached. *)
Lemma batch_tagging_example :
  let sel := ["/mnt/a/lake.jpg"; "/mnt/a/street.jpg"; "/mnt/a/x.jpg"] in
  Async.requests
    (Async.run GalleryScenario.flaky (Gallery.addTagToSelected sel 2))
  = [Gallery.tagRequest "POST" "/mnt/a/lake.jpg" 2;
     Gallery.tagRequest "POST" "/mnt/a/street.jpg" 2]
  /\ Async.effects
       (Async.run GalleryScenario.flaky (Gallery.addTagToSelected sel 2))
     = [Gallery.ConsoleError "Failed to fetch"].
Proof.
  intros sel.
  refine (proj2 (proj2 (batch_tagging GalleryScenario.flaky sel 2))
            ["/mnt/a/lake.jpg"] "/mnt/a/street.jpg" ["/mnt/a/x.jpg"]
            "Failed to fetch" eq_refl _ eq_refl).
  repeat constructor. eexists. reflexivity.
Defined.

(** [add_then_remove_tag]: the city tag on the lake image. *)
Lemma add_then_remove_tag_example :
  (forall t', In t' (Gallery.img_tags GalleryScenario.lake) ->
              Gallery.tag_id t' <> Gallery.tag_id GalleryScenario.city)
  /\ Gallery.withTagRemoved
       (Gallery.withTagAdded GalleryScenario.lake GalleryScenario.city)
       (Gallery.tag_id GalleryScenario.city)
     = GalleryScenario.lake.
Proof.
  assert (H : forall t', In t' (Gallery.img_tags GalleryScenario.lake) ->
                Gallery.tag_id t' <> Gallery.tag_id GalleryScenario.city).
  { intros t' [<-|[<-|[]]]; discriminate. }
  split; [exact H|].
  exact (add_then_remove_tag GalleryScenario.lake GalleryScenario.city H).
Defined.
